(** * Quiz session controller of [static/js/quiz.js]

    A shallow embedding of the browser script of Assignment 3: its six
    module-level variables, the part of the page it reads and writes, and its
    four event handlers.  JavaScript strings are sequences of UTF-16 code
    units, JavaScript numbers are IEEE 754 binary64 values
    ([SpecFloat.spec_float] at precision 53), and a handler is a computation
    that threads the page state and either completes or throws. *)

From Stdlib Require Import ZArith NArith List String Ascii Bool Lia.
From Stdlib Require Import Floats.SpecFloat.
From stdpp Require Import base list functions.
Import ListNotations.

Local Open Scope Z_scope.

(** ** ECMAScript strings *)

Module JsString.

(** A string value is a finite sequence of 16-bit code units. *)
Definition t := list N.

(** An ASCII literal of the script. *)
Definition lit (s : string) : t :=
  List.map N_of_ascii (list_ascii_of_string s).

Definition eqb (a b : t) : bool := bool_decide (a = b).

(** [WhiteSpace] and [LineTerminator] code points, the characters that
    [String.prototype.trim] strips. *)
Definition is_white_space (c : N) : bool :=
  ((9 <=? c) && (c <=? 13) || (c =? 32) || (c =? 160) || (c =? 0x1680)
   || (0x2000 <=? c) && (c <=? 0x200A)
   || (c =? 0x2028) || (c =? 0x2029) || (c =? 0x202F) || (c =? 0x205F)
   || (c =? 0x3000) || (c =? 0xFEFF))%N.

Fixpoint trim_start (s : t) : t :=
  match s with
  | c :: s' => if is_white_space c then trim_start s' else s
  | [] => []
  end.

Definition trim (s : t) : t := rev (trim_start (rev (trim_start s))).

(** Decimal digits of a natural number. *)
Fixpoint of_uint (d : Decimal.uint) : t :=
  match d with
  | Decimal.Nil => []
  | Decimal.D0 d => 48%N :: of_uint d
  | Decimal.D1 d => 49%N :: of_uint d
  | Decimal.D2 d => 50%N :: of_uint d
  | Decimal.D3 d => 51%N :: of_uint d
  | Decimal.D4 d => 52%N :: of_uint d
  | Decimal.D5 d => 53%N :: of_uint d
  | Decimal.D6 d => 54%N :: of_uint d
  | Decimal.D7 d => 55%N :: of_uint d
  | Decimal.D8 d => 56%N :: of_uint d
  | Decimal.D9 d => 57%N :: of_uint d
  end.

Definition digits (n : Z) : t := of_uint (N.to_uint (Z.to_N n)).

End JsString.

Abbreviation jsstring := JsString.t.
Abbreviation lit := JsString.lit.

(** ** ECMAScript numbers *)

Module Number.

Definition t := spec_float.

Definition prec : Z := 53.
Definition emax : Z := 1024.

(** The Number nearest to an integer, and to a quotient of two positive
    integers (round to nearest, ties to even). *)
Definition ofZ (z : Z) : t := binary_normalize prec emax z 0 false.

Definition of_ratio (p q : Z) : t :=
  let '(mz, ez, lz) := SFdiv_core_binary prec emax p 0 q 0 in
  binary_round_aux prec emax false mz ez lz.

Definition sub : t -> t -> t := SFsub prec emax.
Definition mul : t -> t -> t := SFmul prec emax.
Definition div : t -> t -> t := SFdiv prec emax.

(** [Math.round]: the nearest integral Number, ties towards [+Infinity];
    a result in [[-0.5, 0)] is [-0]. *)
Definition Math_round (x : t) : t :=
  match x with
  | S754_finite s m e =>
      if 0 <=? e then x
      else
        let r := (2 * cond_Zopp s (Zpos m) + 2 ^ (- e)) / 2 ^ (- e + 1) in
        if r =? 0 then S754_zero s else ofZ r
  | _ => x
  end.

(** *** [Number::toString], radix 10

    For a finite positive [x = p / q] the digits are the shortest decimal
    [s * 10 ^ (n - k)] (with [k] digits) that reads back as [x]. *)

(** [n] with [10 ^ (n - 1) <= p / q < 10 ^ n]. *)
Fixpoint magnitude_up (fuel : nat) (p q n : Z) : Z :=
  match fuel with
  | O => n
  | S fuel' => if p <? q * 10 ^ n then n else magnitude_up fuel' p q (n + 1)
  end.

Fixpoint magnitude_down (fuel : nat) (p q n : Z) : Z :=
  match fuel with
  | O => n
  | S fuel' =>
      if q <=? p * 10 ^ (1 - n) then n
      else magnitude_down fuel' p q (n - 1)
  end.

Definition magnitude (p q : Z) : Z :=
  if q <=? p then magnitude_up 400 p q 1 else magnitude_down 400 p q 0.

(** The value [s * 10 ^ j] as a Number. *)
Definition of_decimal (s j : Z) : t :=
  if 0 <=? j then of_ratio (s * 10 ^ j) 1 else of_ratio s (10 ^ (- j)).

Definition reads_back (x : t) (s j : Z) : bool :=
  SFeqb (of_decimal s j) x.

(** The candidates with [k] digits: the two [k]-digit decimals around
    [p / q]; the result is [(s, n)]. *)
Definition candidate (x : t) (p q n k : Z) : option (Z * Z) :=
  let j := n - k in
  let num := if 0 <=? j then p else p * 10 ^ (- j) in
  let den := if 0 <=? j then q * 10 ^ j else q in
  let s0 := num / den in
  let lo := reads_back x s0 j in
  let hi := reads_back x (s0 + 1) j in
  let up := if s0 + 1 <? 10 ^ k then Some (s0 + 1, n)
            else Some (10 ^ (k - 1), n + 1) in
  match lo, hi with
  | false, false => None
  | true, false => Some (s0, n)
  | false, true => up
  | true, true =>
      match 2 * num ?= (2 * s0 + 1) * den with
      | Lt => Some (s0, n)
      | Gt => up
      | Eq => if Z.even s0 then Some (s0, n) else up
      end
  end.

Fixpoint shortest (fuel : nat) (x : t) (p q n k : Z) : Z * Z * Z :=
  match fuel with
  | O => (p * 10 ^ (k - n) / q, n, k)
  | S fuel' =>
      match candidate x p q n k with
      | Some (s, n') => (s, n', k)
      | None => shortest fuel' x p q n (k + 1)
      end
  end.

Definition zeros (n : Z) : jsstring := repeat 48%N (Z.to_nat n).

Definition toString_pos (x : t) (m : positive) (e : Z) : jsstring :=
  let p := if 0 <=? e then Zpos m * 2 ^ e else Zpos m in
  let q := if 0 <=? e then 1 else 2 ^ (- e) in
  let '(s, n, k) := shortest 17 x p q (magnitude p q) 1 in
  let ds := JsString.digits s in
  if (-5 <=? n) && (n <=? 21) then
    if k <=? n then ds ++ zeros (n - k)
    else if 0 <? n then
      take (Z.to_nat n) ds ++ lit "." ++ drop (Z.to_nat n) ds
    else lit "0." ++ zeros (- n) ++ ds
  else
    let c := if 0 <=? n - 1 then lit "+" else lit "-" in
    let d := JsString.digits (Z.abs (n - 1)) in
    if k =? 1 then ds ++ lit "e" ++ c ++ d
    else take 1 ds ++ lit "." ++ drop 1 ds ++ lit "e" ++ c ++ d.

Definition toString (x : t) : jsstring :=
  match x with
  | S754_nan => lit "NaN"
  | S754_zero _ => lit "0"
  | S754_infinity false => lit "Infinity"
  | S754_infinity true => lit "-Infinity"
  | S754_finite false m e => toString_pos x m e
  | S754_finite true m e =>
      lit "-" ++ toString_pos (S754_finite false m e) m e
  end.

(** *** [Number.prototype.toFixed(1)] *)

Definition toFixed1 (x : t) : jsstring :=
  match x with
  | S754_nan | S754_infinity _ => toString x
  | S754_zero _ => lit "0.0"
  | S754_finite sg m e =>
      let s := if sg then lit "-" else [] in
      let p := if 0 <=? e then Zpos m * 2 ^ e else Zpos m in
      let q := if 0 <=? e then 1 else 2 ^ (- e) in
      if q * 10 ^ 21 <=? p then s ++ toString_pos (S754_finite false m e) m e
      else
        (* the integer n with n / 10 nearest to p / q, the larger of two *)
        let n := (20 * p + q) / (2 * q) in
        let ds := JsString.digits n in
        let ds := if (length ds <=? 1)%nat
                  then repeat 48%N (2 - length ds) ++ ds else ds in
        s ++ take (length ds - 1) ds ++ lit "." ++ drop (length ds - 1) ds
  end.

End Number.

Arguments JsString.lit : simpl never.
Arguments JsString.digits : simpl never.
Arguments JsString.trim : simpl never.
Arguments JsString.eqb : simpl never.
Arguments Number.toString : simpl never.
Arguments Number.toFixed1 : simpl never.
Arguments Number.Math_round : simpl never.
Arguments Number.ofZ : simpl never.
Arguments Number.sub : simpl never.
Arguments Number.mul : simpl never.
Arguments Number.div : simpl never.

(** ** Data model *)

(** An answer option of a question: [{label, text}]. *)
Module Opt.
Record t := { label : jsstring; text : jsstring }.
End Opt.

(** A question as the provider sends it. *)
Module Question.
Record t := {
  id : Z;
  question : jsstring;
  options : list Opt.t;
  correct_label : jsstring;
  explanation : jsstring
}.
End Question.

(** An entry of [breakdown], the object literal pushed by [handleAnswer]. *)
Module Answer.
Record t := {
  questionId : Z;
  question : jsstring;
  selectedLabel : jsstring;
  correctLabel : jsstring;
  correct : bool;
  explanation : jsstring
}.
End Answer.

(** A thrown value: an [Error] object with its [message]. *)
Module JsError.
Record t := { name : jsstring; message : jsstring }.

Definition Error (msg : jsstring) : t :=
  {| name := lit "Error"; message := msg |}.

(** Reading property [prop] of [undefined].  The wording of the message is
    the engine's (here V8's); nothing below depends on it. *)
Definition undefined_read (prop : string) : t :=
  {| name := lit "TypeError";
     message := lit "Cannot read properties of undefined (reading '"
                  ++ lit prop ++ lit "')" |}.
End JsError.

(** An [.option-btn] element created by [showQuestion].  [onclick] is the
    label captured by the closure [() => handleAnswer(btn, opt.label)]. *)
Module Button.
Record t := {
  classList : list jsstring;
  textContent : jsstring;
  dataset_label : jsstring;
  onclick : jsstring;
  disabled : bool
}.

(** [classList.add(token)] *)
Definition add_class (token : jsstring) (b : t) : t :=
  {| classList := if bool_decide (token ∈ classList b) then classList b
                  else classList b ++ [token];
     textContent := textContent b;
     dataset_label := dataset_label b;
     onclick := onclick b;
     disabled := disabled b |}.

Definition disable (b : t) : t :=
  {| classList := classList b;
     textContent := textContent b;
     dataset_label := dataset_label b;
     onclick := onclick b;
     disabled := true |}.
End Button.

(** The body handed to [JSON.stringify] for [POST /api/score]. *)
Module ScorePost.
Record t := {
  username : jsstring;
  correct : nat;
  total : nat;
  timeTaken : Number.t;
  breakdown : list Answer.t
}.
End ScorePost.

(** The three screens, by the script's constant names. *)
Inductive Screen := introScreen | quizScreen | resultScreen.

(** The elements whose text the script writes, by the script's constant
    names ([areasDiv] is written through [innerHTML]). *)
Inductive TextElement :=
  | questionText | feedback | explanationP | scoreSpan | progressP
  | finalScoreP | timeTakenP | areasDiv | introError.

#[global] Instance Screen_eq_dec : EqDecision Screen.
Proof. solve_decision. Defined.

#[global] Instance TextElement_eq_dec : EqDecision TextElement.
Proof. solve_decision. Defined.

(** An entry of the browser console. *)
Inductive ConsoleEntry :=
  | Uncaught (e : JsError.t)
  | ConsoleError (msg : jsstring) (e : JsError.t).

(** The module-level variables of the script (lines 18-23).  The two
    counters only ever hold small non-negative integers, on which binary64
    arithmetic is exact; they are kept as [nat] and converted where the
    script divides or prints them.  [startTime] is [null] until the first
    load, then a [Date.now()] value in milliseconds. *)
Record Vars := {
  questions : list Question.t;
  currentIndex : nat;
  score : nat;
  startTime : option Z;
  breakdown : list Answer.t;
  username : jsstring
}.

(** The part of the document the script touches. *)
Record Dom := {
  hidden : Screen -> bool;            (* classList contains "hidden" *)
  text : TextElement -> jsstring;     (* textContent / innerHTML *)
  feedback_color : jsstring;          (* feedback.style.color *)
  explanation_display : jsstring;     (* explanationP.style.display *)
  optionsContainer : list Button.t    (* the .option-btn children *)
}.

(** What the script has done to the world outside the document. *)
Record Env := {
  alerts : list jsstring;             (* alert(...) calls, oldest first *)
  console : list ConsoleEntry;
  fetching : nat;                     (* unsettled fetch("/api/questions") *)
  posts : list ScorePost.t;           (* fetch("/api/score", ...) calls *)
  posting : nat                       (* unsettled fetch("/api/score") *)
}.

Record State := { vars : Vars; dom : Dom; env : Env }.

Definition with_vars (f : Vars -> Vars) (st : State) : State :=
  {| vars := f (vars st); dom := dom st; env := env st |}.
Definition with_dom (f : Dom -> Dom) (st : State) : State :=
  {| vars := vars st; dom := f (dom st); env := env st |}.
Definition with_env (f : Env -> Env) (st : State) : State :=
  {| vars := vars st; dom := dom st; env := f (env st) |}.

Definition put_questions (v : list Question.t) (g : Vars) : Vars :=
  {| questions := v; currentIndex := currentIndex g; score := score g;
     startTime := startTime g; breakdown := breakdown g;
     username := username g |}.
Definition put_currentIndex (v : nat) (g : Vars) : Vars :=
  {| questions := questions g; currentIndex := v; score := score g;
     startTime := startTime g; breakdown := breakdown g;
     username := username g |}.
Definition put_score (v : nat) (g : Vars) : Vars :=
  {| questions := questions g; currentIndex := currentIndex g; score := v;
     startTime := startTime g; breakdown := breakdown g;
     username := username g |}.
Definition put_startTime (v : option Z) (g : Vars) : Vars :=
  {| questions := questions g; currentIndex := currentIndex g;
     score := score g; startTime := v; breakdown := breakdown g;
     username := username g |}.
Definition put_breakdown (v : list Answer.t) (g : Vars) : Vars :=
  {| questions := questions g; currentIndex := currentIndex g;
     score := score g; startTime := startTime g; breakdown := v;
     username := username g |}.
Definition put_username (v : jsstring) (g : Vars) : Vars :=
  {| questions := questions g; currentIndex := currentIndex g;
     score := score g; startTime := startTime g; breakdown := breakdown g;
     username := v |}.

Definition put_hidden (s : Screen) (v : bool) (d : Dom) : Dom :=
  {| hidden := <[s := v]> (hidden d); text := text d;
     feedback_color := feedback_color d;
     explanation_display := explanation_display d;
     optionsContainer := optionsContainer d |}.
Definition put_text (e : TextElement) (v : jsstring) (d : Dom) : Dom :=
  {| hidden := hidden d; text := <[e := v]> (text d);
     feedback_color := feedback_color d;
     explanation_display := explanation_display d;
     optionsContainer := optionsContainer d |}.
Definition put_feedback_color (v : jsstring) (d : Dom) : Dom :=
  {| hidden := hidden d; text := text d; feedback_color := v;
     explanation_display := explanation_display d;
     optionsContainer := optionsContainer d |}.
Definition put_explanation_display (v : jsstring) (d : Dom) : Dom :=
  {| hidden := hidden d; text := text d;
     feedback_color := feedback_color d; explanation_display := v;
     optionsContainer := optionsContainer d |}.
Definition put_buttons (v : list Button.t) (d : Dom) : Dom :=
  {| hidden := hidden d; text := text d;
     feedback_color := feedback_color d;
     explanation_display := explanation_display d;
     optionsContainer := v |}.

Definition put_alerts (v : list jsstring) (w : Env) : Env :=
  {| alerts := v; console := console w; fetching := fetching w;
     posts := posts w; posting := posting w |}.
Definition put_console (v : list ConsoleEntry) (w : Env) : Env :=
  {| alerts := alerts w; console := v; fetching := fetching w;
     posts := posts w; posting := posting w |}.
Definition put_fetching (v : nat) (w : Env) : Env :=
  {| alerts := alerts w; console := console w; fetching := v;
     posts := posts w; posting := posting w |}.
Definition put_posts (v : list ScorePost.t) (w : Env) : Env :=
  {| alerts := alerts w; console := console w; fetching := fetching w;
     posts := v; posting := posting w |}.
Definition put_posting (v : nat) (w : Env) : Env :=
  {| alerts := alerts w; console := console w; fetching := fetching w;
     posts := posts w; posting := v |}.

(** ** Handlers as computations

    A piece of script either completes with a value or throws; in both cases
    the writes made so far stay. *)

Inductive completion (A : Type) :=
  | Normal (a : A)
  | Throw (e : JsError.t).
Arguments Normal {A} a.
Arguments Throw {A} e.

Definition M (A : Type) : Type := State -> completion A * State.

Definition ret {A} (a : A) : M A := fun st => (Normal a, st).
Definition throw {A} (e : JsError.t) : M A := fun st => (Throw e, st).
Definition bind {A B} (m : M A) (k : A -> M B) : M B :=
  fun st =>
    match m st with
    | (Normal a, st') => k a st'
    | (Throw e, st') => (Throw e, st')
    end.
Definition get : M State := fun st => (Normal st, st).
Definition modify (f : State -> State) : M unit := fun st => (Normal tt, f st).

(** [try { body } catch (err) { handler }] *)
Definition try_catch {A} (body : M A) (handler : JsError.t -> M A) : M A :=
  fun st =>
    match body st with
    | (Normal a, st') => (Normal a, st')
    | (Throw e, st') => handler e st'
    end.

Notation "x <- m ;; k" := (bind m (fun x => k))
  (at level 100, m at next level, k at level 200, right associativity).
Notation "m ;; k" := (bind m (fun _ => k))
  (at level 100, k at level 200, right associativity).

(** A property read [o.prop] where [o] may be [undefined]. *)
Definition defined {A} (o : option A) (prop : string) : M A :=
  match o with
  | Some a => ret a
  | None => throw (JsError.undefined_read prop)
  end.

(** [array.forEach(f)] *)
Fixpoint forEach {A} (l : list A) (f : A -> M unit) : M unit :=
  match l with
  | [] => ret tt
  | a :: l' => f a ;; forEach l' f
  end.

Definition set_var (f : Vars -> Vars) : M unit := modify (with_vars f).
Definition set_dom (f : Dom -> Dom) : M unit := modify (with_dom f).
Definition set_env (f : Env -> Env) : M unit := modify (with_env f).

Definition alert (msg : jsstring) : M unit :=
  st <- get ;; set_env (put_alerts (alerts (env st) ++ [msg])).

(** A counter as a Number, and as the string a template literal makes of
    it. *)
Definition Number_of_nat (n : nat) : Number.t := Number.ofZ (Z.of_nat n).
Definition show_nat (n : nat) : jsstring := Number.toString (Number_of_nat n).

(** ** The script *)

(** The button [showQuestion] creates for an option, lines 124-128. *)
Definition option_button (opt : Opt.t) : Button.t :=
  {| Button.classList := [lit "option-btn"];
     Button.textContent := Opt.label opt ++ lit ") " ++ Opt.text opt;
     Button.dataset_label := Opt.label opt;
     Button.onclick := Opt.label opt;
     Button.disabled := false |}.

(** [showQuestion()], lines 109-131. *)
Definition showQuestion : M unit :=
  st <- get ;;
  let q := questions (vars st) !! currentIndex (vars st) in
  set_dom (put_text feedback []) ;;
  set_dom (put_text explanationP []) ;;
  set_dom (put_text progressP
             (lit "Question " ++ show_nat (currentIndex (vars st) + 1)
                ++ lit " of " ++ show_nat (length (questions (vars st))))) ;;
  q <- defined q "question" ;;
  set_dom (put_text questionText (Question.question q)) ;;
  set_dom (put_buttons []) ;;
  forEach (Question.options q) (fun opt =>
    let btn := option_button opt in
    st <- get ;;
    set_dom (put_buttons (optionsContainer (dom st) ++ [btn]))).

(** [handleAnswer(clickedButton, selectedLabel)], lines 148-189.  The clicked
    button is given by its position among the [.option-btn] elements. *)
Definition handleAnswer (clickedButton : nat) (selectedLabel : jsstring)
  : M unit :=
  st <- get ;;
  q <- defined (questions (vars st) !! currentIndex (vars st))
         "correct_label" ;;
  let correct := JsString.eqb selectedLabel (Question.correct_label q) in
  set_var (put_breakdown
             (breakdown (vars st) ++
                [ {| Answer.questionId := Question.id q;
                     Answer.question := Question.question q;
                     Answer.selectedLabel := selectedLabel;
                     Answer.correctLabel := Question.correct_label q;
                     Answer.correct := correct;
                     Answer.explanation := Question.explanation q |} ])) ;;
  (if correct then
     set_dom (fun d => put_buttons
                (alter (Button.add_class (lit "correct")) clickedButton
                   (optionsContainer d)) d) ;;
     set_var (fun g => put_score (score g + 1) g) ;;
     set_dom (put_text feedback (10003%N :: lit " Correct!")) ;;
     set_dom (put_feedback_color (lit "#4CAF50"))
   else
     set_dom (fun d => put_buttons
                (alter (Button.add_class (lit "incorrect")) clickedButton
                   (optionsContainer d)) d) ;;
     set_dom (put_text feedback
                (10007%N :: lit " Incorrect. The correct answer was '"
                   ++ Question.correct_label q ++ lit "'.")) ;;
     set_dom (put_feedback_color (lit "#f44336")) ;;
     set_dom (fun d => put_buttons
                (List.map (fun btn =>
                   if JsString.eqb (Button.dataset_label btn)
                        (Question.correct_label q)
                   then Button.add_class (lit "show-correct") btn else btn)
                   (optionsContainer d)) d)) ;;
  set_dom (put_text explanationP
             (lit "Explanation: " ++ Question.explanation q)) ;;
  set_dom (put_explanation_display (lit "block")) ;;
  st' <- get ;;
  set_dom (put_text scoreSpan (show_nat (score (vars st')))) ;;
  set_dom (fun d => put_buttons
             (List.map Button.disable (optionsContainer d)) d).

(** The review markup of one missed answer (lines 237-240). *)
Definition review_item (m : Answer.t) : jsstring :=
  lit "<p><strong>" ++ Answer.question m ++ lit "</strong><br>"
    ++ 10%N :: lit "        Your answer: " ++ Answer.selectedLabel m
    ++ lit "<br>"
    ++ 10%N :: lit "        Correct answer: " ++ Answer.correctLabel m
    ++ lit "<br>"
    ++ 10%N :: lit "        Explanation: " ++ Answer.explanation m
    ++ lit "</p>".

Definition review_html (missed : list Answer.t) : jsstring :=
  if (length missed =? 0)%nat then
    lit "<p>Perfect score! Excellent work! " ++ [0xD83C%N; 0xDF89%N]
      ++ lit "</p>"
  else
    fold_left (fun html m => html ++ review_item m) missed
      (lit "<h3>Questions to review:</h3>").

(** [endTime - startTime]; [startTime] is [null] before the first load and
    [null] converts to [+0]. *)
Definition elapsed_ms (endTime : Z) (start : option Z) : Number.t :=
  Number.sub (Number.ofZ endTime)
    (match start with Some t => Number.ofZ t | None => S754_zero false end).

(** [finishQuiz()], lines 216-261, up to its [await]; [now] is what
    [Date.now()] returns. *)
Definition finishQuiz (now : Z) : M unit :=
  st <- get ;;
  let g := vars st in
  let endTime := now in
  let timeTakenSec :=
    Number.Math_round
      (Number.div (elapsed_ms endTime (startTime g)) (Number.ofZ 1000)) in
  set_dom (put_hidden quizScreen true) ;;
  set_dom (put_hidden resultScreen false) ;;
  let percent :=
    Number.toFixed1
      (Number.mul
         (Number.div (Number_of_nat (score g))
            (Number_of_nat (length (questions g))))
         (Number.ofZ 100)) in
  set_dom (put_text finalScoreP
             (username g ++ lit ", your final score: " ++ show_nat (score g)
                ++ lit "/" ++ show_nat (length (questions g))
                ++ lit " (" ++ percent ++ lit "%)")) ;;
  set_dom (put_text timeTakenP
             (lit "Time taken: " ++ Number.toString timeTakenSec
                ++ lit " seconds.")) ;;
  let missed :=
    List.filter (fun b => negb (Answer.correct b)) (breakdown g) in
  set_dom (put_text areasDiv (review_html missed)) ;;
  set_env (fun w => put_posting (posting w + 1)
            (put_posts (posts w ++
               [ {| ScorePost.username := username g;
                    ScorePost.correct := score g;
                    ScorePost.total := length (questions g);
                    ScorePost.timeTaken := timeTakenSec;
                    ScorePost.breakdown := breakdown g |} ]) w)).

(** The [next-btn] click handler, lines 194-201. *)
Definition next_click (now : Z) : M unit :=
  st <- get ;;
  if Z.of_nat (currentIndex (vars st))
       <? Z.of_nat (length (questions (vars st))) - 1
  then
    set_var (fun g => put_currentIndex (currentIndex g + 1) g) ;;
    showQuestion
  else finishQuiz now.

(** What the provider sent, after [res.json()]. *)
Record ApiData := {
  status : jsstring;
  message : option jsstring;
  data_questions : list Question.t
}.

(** How [fetch("/api/questions")] followed by [res.json()] settles. *)
Inductive FetchOutcome :=
  | FetchRejected (e : JsError.t)    (* the request failed *)
  | JsonRejected (e : JsError.t)     (* the body is not JSON *)
  | Response (data : ApiData).

(** [data.message || "Failed to load questions"] *)
Definition message_or_default (m : option jsstring) : jsstring :=
  match m with
  | Some (c :: s) => c :: s
  | _ => lit "Failed to load questions"
  end.

(** [loadQuestions()], lines 71-96, from the point where its two [await]s
    have settled with [o]. *)
Definition loadQuestions (o : FetchOutcome) (now : Z) : M unit :=
  try_catch
    (data <- match o with
             | FetchRejected e | JsonRejected e => throw e
             | Response data => ret data
             end ;;
     (if negb (JsString.eqb (status data) (lit "ok")) then
        throw (JsError.Error (message_or_default (message data)))
      else ret tt) ;;
     set_var (put_questions (data_questions data)) ;;
     set_var (put_currentIndex 0) ;;
     set_var (put_score 0) ;;
     set_var (put_breakdown []) ;;
     set_var (put_startTime (Some now)) ;;
     set_dom (put_hidden introScreen true) ;;
     set_dom (put_hidden quizScreen false) ;;
     showQuestion)
    (fun err =>
       alert (lit "Error loading questions: " ++ JsError.message err)).

(** The [start-btn] click handler, lines 47-59, up to the [await] inside
    [loadQuestions]; [value] is the content of the [#username] input. *)
Definition start_click (value : jsstring) : M unit :=
  set_var (put_username (JsString.trim value)) ;;
  st <- get ;;
  match username (vars st) with
  | [] =>
      set_dom (put_text introError (lit "Please enter your name to start."))
  | _ :: _ =>
      set_dom (put_text introError []) ;;
      set_env (fun w => put_fetching (fetching w + 1) w)
  end.

(** ** The page as an event-driven machine *)

(** What can happen to the page.  Clicks carry what the handler reads from
    outside the script: the input's value, the clock. *)
Inductive Event :=
  | StartClick (value : jsstring)
  | QuestionsSettled (o : FetchOutcome) (now : Z)
  | OptionClick (i : nat)
  | NextClick (now : Z)
  | ScoreSettled (failure : option JsError.t).

(** Run a handler to its end; an exception that leaves it is reported on
    the console. *)
Definition dispatch (handler : M unit) (st : State) : State :=
  match handler st with
  | (Normal _, st') => st'
  | (Throw e, st') => with_env (fun w => put_console (console w ++ [Uncaught e]) w) st'
  end.

(** One event.  A settle event needs a request in flight; a click on a
    disabled button, or on a button that does not exist, dispatches
    nothing.  Whether a screen that carries the class [hidden] can still be
    clicked depends on the stylesheet, so no click is ruled out for that. *)
Definition step (ev : Event) (st : State) : State :=
  match ev with
  | StartClick value => dispatch (start_click value) st
  | QuestionsSettled o now =>
      match fetching (env st) with
      | O => st
      | S n =>
          dispatch (loadQuestions o now) (with_env (put_fetching n) st)
      end
  | OptionClick i =>
      match optionsContainer (dom st) !! i with
      | Some btn =>
          if Button.disabled btn then st
          else dispatch (handleAnswer i (Button.onclick btn)) st
      | None => st
      end
  | NextClick now => dispatch (next_click now) st
  | ScoreSettled failure =>
      match posting (env st) with
      | O => st
      | S n =>
          let st' := with_env (put_posting n) st in
          match failure with
          | Some err =>
              (* catch (err) { console.error("Failed to save score:", err) } *)
              with_env (fun w => put_console
                (console w ++ [ConsoleError (lit "Failed to save score:") err])
                w) st'
          | None => st'
          end
      end
  end.

Definition run (evs : list Event) (st : State) : State :=
  fold_left (fun st ev => step ev st) evs st.

(** Modelled from the spec: the page markup is not part of the sources.  The
    script's variables start as lines 18-23 initialise them; the document
    starts in the spec's [Idle] state, with the intro screen shown, the quiz
    and result screens hidden, no option button and no text. *)
Definition init : State :=
  {| vars := {| questions := []; currentIndex := 0%nat; score := 0%nat;
                startTime := None; breakdown := []; username := [] |};
     dom := {| hidden := fun s => match s with
                                  | introScreen => false
                                  | _ => true
                                  end;
               text := fun _ => [];
               feedback_color := [];
               explanation_display := [];
               optionsContainer := [] |};
     env := {| alerts := []; console := []; fetching := 0%nat;
               posts := []; posting := 0%nat |} |}.

(** The states of the spec's controller, read off the page: a load in
    flight is [Loading]; otherwise the visible screen decides, and on the
    quiz screen the question is [Answered] once its buttons are locked. *)
Inductive Phase := Idle | Loading | Active | Answered | Finished.

#[global] Instance Phase_eq_dec : EqDecision Phase.
Proof. solve_decision. Defined.

Definition locked (buttons : list Button.t) : bool :=
  match buttons with
  | [] => false
  | _ :: _ => forallb Button.disabled buttons
  end.

Definition phase (st : State) : Phase :=
  if (0 <? fetching (env st))%nat then Loading
  else if negb (hidden (dom st) resultScreen) then Finished
  else if negb (hidden (dom st) quizScreen) then
    if locked (optionsContainer (dom st)) then Answered else Active
  else Idle.

(** ** Vocabulary of the claims *)

(** The number of entries of a breakdown with [correct === true]. *)
Definition count_correct (b : list Answer.t) : nat :=
  length (List.filter Answer.correct b).

(** [r] is the record [handleAnswer] makes of an answer to [q]. *)
Definition answers (r : Answer.t) (q : Question.t) : Prop :=
  Answer.questionId r = Question.id q
  /\ Answer.question r = Question.question q
  /\ Answer.correctLabel r = Question.correct_label q
  /\ Answer.explanation r = Question.explanation q
  /\ Answer.correct r
     = JsString.eqb (Answer.selectedLabel r) (Question.correct_label q).

Definition record_of (q : Question.t) (selectedLabel : jsstring) : Answer.t :=
  {| Answer.questionId := Question.id q;
     Answer.question := Question.question q;
     Answer.selectedLabel := selectedLabel;
     Answer.correctLabel := Question.correct_label q;
     Answer.correct := JsString.eqb selectedLabel (Question.correct_label q);
     Answer.explanation := Question.explanation q |}.

Definition option_labels (q : Question.t) : list jsstring :=
  List.map Opt.label (Question.options q).

(** A failed load: the request or the JSON parse rejected, or the payload's
    status is not ["ok"]. *)
Definition failed (o : FetchOutcome) : bool :=
  match o with
  | FetchRejected _ | JsonRejected _ => true
  | Response data => negb (JsString.eqb (status data) (lit "ok"))
  end.

Definition failure_message (o : FetchOutcome) : jsstring :=
  match o with
  | FetchRejected e | JsonRejected e => JsError.message e
  | Response data => message_or_default (message data)
  end.

(** Some option button can still be clicked. *)
Definition clickable (bs : list Button.t) : bool :=
  existsb (fun b => negb (Button.disabled b)) bs.

(** How many questions can have been answered: those before the current
    one, and the current one once its buttons are locked. *)
Definition answerable (ci : nat) (bs : list Button.t) : nat :=
  (ci + if clickable bs then 0 else 1)%nat.

(** The invariant of the page: the score counts the correct records, the
    records answer distinct questions in question order, and the buttons
    carry the labels of the current question. *)
Record Inv (st : State) : Prop := {
  inv_score :
    score (vars st) = count_correct (breakdown (vars st));
  inv_answers :
    exists qs,
      Forall2 answers (breakdown (vars st)) qs
      /\ qs `sublist_of`
           take (answerable (currentIndex (vars st))
                   (optionsContainer (dom st)))
             (questions (vars st));
  inv_buttons :
    forall q,
      questions (vars st) !! currentIndex (vars st) = Some q ->
      List.map Button.onclick (optionsContainer (dom st)) = option_labels q
}.

(** The variables of a fresh attempt, as [loadQuestions] sets them. *)
Definition fresh_vars (qs : list Question.t) (now : Z) (name : jsstring)
  : Vars :=
  {| questions := qs; currentIndex := 0%nat; score := 0%nat;
     startTime := Some now; breakdown := []; username := name |}.

(** The state in which [loadQuestions] calls [showQuestion]. *)
Definition loaded (qs : list Question.t) (now : Z) (st : State) : State :=
  {| vars := fresh_vars qs now (username (vars st));
     dom := put_hidden quizScreen false (put_hidden introScreen true (dom st));
     env := env st |}.

Definition ok_response (qs : list Question.t) : FetchOutcome :=
  Response {| status := lit "ok"; message := None; data_questions := qs |}.

(** ** A sample session

    The question set of the spec's round-trip properties:
    [{id: 1, options: [a, b], correct_label: "a"}] and
    [{id: 2, options: [a, b], correct_label: "b"}]. *)
Module Sample.

Definition options_ab : list Opt.t :=
  [ {| Opt.label := lit "a"; Opt.text := lit "first" |};
    {| Opt.label := lit "b"; Opt.text := lit "second" |} ].

Definition q1 : Question.t :=
  {| Question.id := 1; Question.question := lit "One?";
     Question.options := options_ab; Question.correct_label := lit "a";
     Question.explanation := lit "a it is" |}.

Definition q2 : Question.t :=
  {| Question.id := 2; Question.question := lit "Two?";
     Question.options := options_ab; Question.correct_label := lit "b";
     Question.explanation := lit "b it is" |}.

Definition quiz : list Question.t := [q1; q2].

Definition unreachable : FetchOutcome :=
  FetchRejected {| JsError.name := lit "TypeError";
                   JsError.message := lit "Failed to fetch" |}.

(** Ann starts at time 1000 and sees the first question. *)
Definition started : State :=
  run [StartClick (lit " Ann "); QuestionsSettled (ok_response quiz) 1000]
    init.

(** She answers it with its first option. *)
Definition answered : State := run [OptionClick 0%nat] started.

(** She is on the last question and has answered it. *)
Definition answered_last : State :=
  run [NextClick 2000; OptionClick 1%nat] answered.

(** Ann's first attempt fails to load. *)
Definition load_failed : State :=
  run [StartClick (lit "Ann"); QuestionsSettled unreachable 1000] init.

(** The provider answers with no question at all. *)
Definition started_empty : State :=
  run [StartClick (lit "Ann"); QuestionsSettled (ok_response []) 1000] init.

End Sample.

(** The percentage and the elapsed seconds as [finishQuiz] computes them,
    in binary64 arithmetic. *)
Definition percent_text (score total : nat) : jsstring :=
  Number.toFixed1
    (Number.mul (Number.div (Number_of_nat score) (Number_of_nat total))
       (Number.ofZ 100)).

Definition elapsed_seconds (now : Z) (start : option Z) : Number.t :=
  Number.Math_round (Number.div (elapsed_ms now start) (Number.ofZ 1000)).

(** The same two quantities in exact arithmetic, for comparison: a number
    of tenths written with one decimal, and the whole second nearest to a
    number of milliseconds (half a second counts up). *)
Definition one_decimal (tenths : Z) : jsstring :=
  JsString.digits (tenths / 10) ++ lit "." ++ JsString.digits (tenths mod 10).

Definition nearest_tenths (score total : Z) (tenths : Z) : bool :=
  2 * Z.abs (tenths * total - 1000 * score) <=? total.

Definition nearest_second (ms : Z) : Z := (ms + 500) / 1000.

(** *** Binary64 values by significand and exponent

    [normal53 m e] is the positive Number [m * 2 ^ e] for a significand of
    53 bits, [2 ^ 52 <= m <= 2 ^ 53]; at [m = 2 ^ 53] the significand has
    carried into the next exponent.  [exact53 z] is the integer [z] below
    [2 ^ 53] with its bits shifted to the top of the significand. *)
Definition normal53 (m e : Z) : spec_float :=
  if m <? 2 ^ 53 then S754_finite false (Z.to_pos m) e
  else S754_finite false (Z.to_pos (2 ^ 52)) (e + 1).

Definition exact53 (z : Z) : spec_float :=
  S754_finite false (Z.to_pos (z * 2 ^ (53 - Zdigits2 z))) (Zdigits2 z - 53).

(** ** Vocabulary of the further properties *)

(** An input that [trim] empties: white space only. *)
Definition blank (value : jsstring) : bool :=
  forallb JsString.is_white_space value.

(** The exceptions that left a handler. *)
Definition uncaught (c : list ConsoleEntry) : list JsError.t :=
  flat_map (fun entry => match entry with
                         | Uncaught e => [e]
                         | ConsoleError _ _ => []
                         end) c.

(** The two texts of the review area. *)
Definition perfect_message : jsstring :=
  lit "<p>Perfect score! Excellent work! " ++ [0xD83C%N; 0xDF89%N]
    ++ lit "</p>".

Definition review_header : jsstring := lit "<h3>Questions to review:</h3>".

(** A user who answers every question and moves on: for each question the
    position of the option button clicked, and the clock at the click on
    Next. *)
Definition play (choices : list (nat * Z)) : list Event :=
  flat_map (fun c => [OptionClick c.1; NextClick c.2]) choices.

(** The record of choosing the [c]-th option of [q]. *)
Definition chosen (q : Question.t) (c : nat * Z) : Answer.t :=
  record_of q (from_option Opt.label [] (Question.options q !! c.1)).

(** A posted score agrees with the records posted along with it. *)
Definition consistent (p : ScorePost.t) : Prop :=
  ScorePost.correct p = count_correct (ScorePost.breakdown p)
  /\ (length (ScorePost.breakdown p) <= ScorePost.total p)%nat.

(** The class list of an option button after an answer: [clicked] tells
    whether it is the button clicked, [right] whether the answer was right. *)
Definition classes_after (clicked right : bool) (correct_label : jsstring)
    (b : Button.t) : list jsstring :=
  let mark (c : jsstring) (cs : list jsstring) :=
    if bool_decide (c ∈ cs) then cs else cs ++ [c] in
  let own :=
    if clicked
    then mark (if right then lit "correct" else lit "incorrect")
           (Button.classList b)
    else Button.classList b in
  if negb right && JsString.eqb (Button.dataset_label b) correct_label
  then mark (lit "show-correct") own else own.

(** An option button after an answer: marked by [classes_after], locked,
    and otherwise as it was. *)
Definition answered_button (clicked right : bool) (correct_label : jsstring)
    (b : Button.t) : Button.t :=
  {| Button.classList := classes_after clicked right correct_label b;
     Button.textContent := Button.textContent b;
     Button.dataset_label := Button.dataset_label b;
     Button.onclick := Button.onclick b;
     Button.disabled := true |}.

(** The progress line of [showQuestion]. *)
Definition progress_text (index total : nat) : jsstring :=
  lit "Question " ++ show_nat (index + 1) ++ lit " of " ++ show_nat total.

(** The session is on question [k] of [qs] with the records [bd] so far,
    and nothing has gone wrong: no alert, no exception, nothing posted. *)
Definition playing (qs : list Question.t) (now : Z) (name : jsstring)
    (k : nat) (bd : list Answer.t) (st : State) : Prop :=
  vars st = {| questions := qs; currentIndex := k;
               score := count_correct bd; startTime := Some now;
               breakdown := bd; username := name |}
  /\ (exists q, qs !! k = Some q
                /\ optionsContainer (dom st)
                   = List.map option_button (Question.options q))
  /\ fetching (env st) = 0%nat
  /\ hidden (dom st) resultScreen = true
  /\ hidden (dom st) quizScreen = false
  /\ posts (env st) = []
  /\ alerts (env st) = []
  /\ uncaught (console (env st)) = [].

(** How many clicks on Next, and how many settled loads, a trace has. *)
Definition next_clicks (evs : list Event) : nat :=
  length (List.filter (fun ev => match ev with
                                 | NextClick _ => true
                                 | _ => false
                                 end) evs).

Definition loads_settled (evs : list Event) : nat :=
  length (List.filter (fun ev => match ev with
                                 | QuestionsSettled _ _ => true
                                 | _ => false
                                 end) evs).

Arguments count_correct : simpl never.
Arguments answerable : simpl never.
Arguments clickable : simpl never.
Arguments option_labels : simpl never.
Arguments record_of : simpl never.

(** ** What each function does to the state *)

Section Effects.

Implicit Types (st : State) (q : Question.t).

Lemma forEach_append (opts : list Opt.t) st :
  forEach opts (fun opt =>
    let btn := option_button opt in
    st <- get ;;
    set_dom (put_buttons (optionsContainer (dom st) ++ [btn]))) st
  = (Normal tt,
     with_dom (put_buttons
       (optionsContainer (dom st) ++ List.map option_button opts)) st).
Proof.
  revert st. induction opts as [|opt opts IH]; intros [g d w].
  - cbn. rewrite app_nil_r. by destruct d.
  - cbn [forEach]. unfold bind at 1. cbn.
    rewrite IH. cbn. by rewrite <- app_assoc.
Qed.

(** [showQuestion] with a current question: the texts are reset and the
    buttons are those of the question, all enabled. *)
Lemma showQuestion_some st q :
  questions (vars st) !! currentIndex (vars st) = Some q ->
  exists st',
    showQuestion st = (Normal tt, st')
    /\ vars st' = vars st /\ env st' = env st
    /\ hidden (dom st') = hidden (dom st)
    /\ optionsContainer (dom st')
       = List.map option_button (Question.options q).
Proof.
  intros Hq. unfold showQuestion, bind at 1, get. cbn beta iota.
  rewrite Hq. cbn -[forEach]. rewrite forEach_append.
  eexists. split; [reflexivity|]. by destruct st as [g d w].
Qed.

(** [showQuestion] without one: it throws at [q.question], after three
    texts are written and before the old buttons are removed. *)
Lemma showQuestion_none st :
  questions (vars st) !! currentIndex (vars st) = None ->
  exists st',
    showQuestion st = (Throw (JsError.undefined_read "question"), st')
    /\ vars st' = vars st /\ env st' = env st
    /\ hidden (dom st') = hidden (dom st)
    /\ optionsContainer (dom st') = optionsContainer (dom st).
Proof.
  intros Hq. unfold showQuestion, bind at 1, get. cbn beta iota.
  rewrite Hq. cbn. eexists. split; [reflexivity|].
  by destruct st as [g d w].
Qed.

Lemma fmap_disable_locks (bs : list Button.t) :
  forallb Button.disabled (List.map Button.disable bs) = true.
Proof. induction bs; [done|]. cbn. done. Qed.

Lemma onclick_add_class c (b : Button.t) :
  Button.onclick (Button.add_class c b) = Button.onclick b.
Proof. done. Qed.

Lemma onclick_alter f i (bs : list Button.t) :
  (forall b, Button.onclick (f b) = Button.onclick b) ->
  List.map Button.onclick (alter f i bs) = List.map Button.onclick bs.
Proof.
  intros Hf. revert i. induction bs as [|b bs IH]; intros [|i]; cbn;
    rewrite ?Hf, ?IH; done.
Qed.

Lemma onclick_map f (bs : list Button.t) :
  (forall b, Button.onclick (f b) = Button.onclick b) ->
  List.map Button.onclick (List.map f bs) = List.map Button.onclick bs.
Proof.
  intros Hf. induction bs as [|b bs IH]; cbn; rewrite ?Hf, ?IH; done.
Qed.

(** [handleAnswer] with a current question, whatever the label. *)
Lemma handleAnswer_some st q i l :
  questions (vars st) !! currentIndex (vars st) = Some q ->
  exists st',
    handleAnswer i l st = (Normal tt, st')
    /\ vars st'
       = put_score
           (score (vars st)
            + if JsString.eqb l (Question.correct_label q) then 1 else 0)%nat
           (put_breakdown (breakdown (vars st) ++ [record_of q l])
              (vars st))
    /\ env st' = env st
    /\ hidden (dom st') = hidden (dom st)
    /\ forallb Button.disabled (optionsContainer (dom st')) = true
    /\ length (optionsContainer (dom st'))
       = length (optionsContainer (dom st))
    /\ List.map Button.onclick (optionsContainer (dom st'))
       = List.map Button.onclick (optionsContainer (dom st)).
Proof.
  intros Hq. unfold handleAnswer, bind at 1, get. cbn beta iota.
  rewrite Hq. unfold record_of.
  destruct st as [g d w]. cbn.
  destruct (JsString.eqb l _) eqn:E; cbn;
    (eexists; split; [reflexivity|]); cbn;
    rewrite ?fmap_disable_locks, ?length_map, ?length_alter, ?Nat.add_0_r;
    repeat split; try done.
  - rewrite onclick_map by done. by apply onclick_alter.
  - rewrite (onclick_map Button.disable) by done.
    rewrite onclick_map; [by apply onclick_alter|].
    intros b. cbv beta.
    by destruct (JsString.eqb (Button.dataset_label b) _).
Qed.

(** [handleAnswer] without one throws at [q.correct_label], before any
    write. *)
Lemma handleAnswer_none st i l :
  questions (vars st) !! currentIndex (vars st) = None ->
  handleAnswer i l st = (Throw (JsError.undefined_read "correct_label"), st).
Proof.
  intros Hq. unfold handleAnswer, bind at 1, get. cbn beta iota.
  by rewrite Hq.
Qed.

(** [finishQuiz] completes from every state.  It leaves the variables and
    the buttons alone, shows the result screen, writes the three summary
    texts and issues one [POST /api/score]. *)
Lemma finishQuiz_effect now st :
  exists st',
    finishQuiz now st = (Normal tt, st')
    /\ vars st' = vars st
    /\ optionsContainer (dom st') = optionsContainer (dom st)
    /\ hidden (dom st') introScreen = hidden (dom st) introScreen
    /\ hidden (dom st') quizScreen = true
    /\ hidden (dom st') resultScreen = false
    /\ text (dom st') finalScoreP
       = username (vars st) ++ lit ", your final score: "
           ++ show_nat (score (vars st)) ++ lit "/"
           ++ show_nat (length (questions (vars st))) ++ lit " ("
           ++ Number.toFixed1
                (Number.mul
                   (Number.div (Number_of_nat (score (vars st)))
                      (Number_of_nat (length (questions (vars st)))))
                   (Number.ofZ 100))
           ++ lit "%)"
    /\ text (dom st') timeTakenP
       = lit "Time taken: "
           ++ Number.toString
                (Number.Math_round
                   (Number.div (elapsed_ms now (startTime (vars st)))
                      (Number.ofZ 1000)))
           ++ lit " seconds."
    /\ text (dom st') areasDiv
       = review_html
           (List.filter (fun b => negb (Answer.correct b))
              (breakdown (vars st)))
    /\ posts (env st')
       = posts (env st) ++
           [ {| ScorePost.username := username (vars st);
                ScorePost.correct := score (vars st);
                ScorePost.total := length (questions (vars st));
                ScorePost.timeTaken :=
                  Number.Math_round
                    (Number.div (elapsed_ms now (startTime (vars st)))
                       (Number.ofZ 1000));
                ScorePost.breakdown := breakdown (vars st) |} ]
    /\ fetching (env st') = fetching (env st)
    /\ alerts (env st') = alerts (env st)
    /\ console (env st') = console (env st).
Proof.
  destruct st as [g d w].
  cbv [finishQuiz bind get set_dom set_env set_var modify].
  eexists. split; [reflexivity|]. cbn. repeat split.
Qed.

(** A failed load only raises the alert. *)
Lemma loadQuestions_failed o now st :
  failed o = true ->
  loadQuestions o now st
  = (Normal tt,
     with_env (put_alerts
       (alerts (env st)
          ++ [lit "Error loading questions: " ++ failure_message o])) st).
Proof.
  intros Hf. unfold loadQuestions, try_catch, bind.
  destruct o as [e|e|data]; cbn in Hf |- *; try done.
  by rewrite Hf.
Qed.

(** A load that succeeds resets the variables, switches the screens and
    calls [showQuestion] under the [catch]. *)
Lemma loadQuestions_ok data now st :
  failed (Response data) = false ->
  loadQuestions (Response data) now st
  = try_catch showQuestion
      (fun err =>
         alert (lit "Error loading questions: " ++ JsError.message err))
      (loaded (data_questions data) now st).
Proof.
  intros Hf. cbn in Hf. unfold loadQuestions, try_catch, bind at 1.
  cbn. rewrite Hf. by destruct st as [[] d w].
Qed.

Lemma loadQuestions_ok_some data now st q :
  failed (Response data) = false ->
  data_questions data !! 0%nat = Some q ->
  exists st',
    loadQuestions (Response data) now st = (Normal tt, st')
    /\ vars st' = fresh_vars (data_questions data) now (username (vars st))
    /\ env st' = env st
    /\ hidden (dom st')
       = <[quizScreen := false]> (<[introScreen := true]> (hidden (dom st)))
    /\ optionsContainer (dom st')
       = List.map option_button (Question.options q).
Proof.
  intros Hf Hq. rewrite loadQuestions_ok by done.
  destruct (showQuestion_some (loaded (data_questions data) now st) q Hq)
    as (st' & Hrun & Hvars & Henv & Hhid & Hbs).
  unfold try_catch. rewrite Hrun. eauto 10.
Qed.

Lemma loadQuestions_ok_none data now st :
  failed (Response data) = false ->
  data_questions data !! 0%nat = None ->
  exists st',
    loadQuestions (Response data) now st = (Normal tt, st')
    /\ vars st' = fresh_vars (data_questions data) now (username (vars st))
    /\ alerts (env st')
       = alerts (env st)
           ++ [lit "Error loading questions: "
                 ++ JsError.message (JsError.undefined_read "question")]
    /\ console (env st') = console (env st)
    /\ fetching (env st') = fetching (env st)
    /\ posts (env st') = posts (env st)
    /\ posting (env st') = posting (env st)
    /\ hidden (dom st')
       = <[quizScreen := false]> (<[introScreen := true]> (hidden (dom st)))
    /\ optionsContainer (dom st') = optionsContainer (dom st).
Proof.
  intros Hf Hq. rewrite loadQuestions_ok by done.
  destruct (showQuestion_none (loaded (data_questions data) now st) Hq)
    as (st' & Hrun & Hvars & Henv & Hhid & Hbs).
  unfold try_catch. rewrite Hrun.
  eexists. split; [reflexivity|].
  destruct st' as [g' d' w']. cbn in *. subst. done.
Qed.

(** The start handler with a name: the name is stored, the validation
    message is cleared and one request is issued. *)
Lemma start_click_named value st :
  JsString.trim value <> [] ->
  step (StartClick value) st
  = with_env (fun w => put_fetching (fetching w + 1) w)
      (with_dom (put_text introError [])
         (with_vars (put_username (JsString.trim value)) st)).
Proof.
  intros Hv. cbn [step].
  unfold dispatch, start_click, bind, set_var, modify, get. cbn.
  by destruct (JsString.trim value).
Qed.

(** The phase reads the requests in flight, the screens and the buttons. *)
Lemma phase_ext st st' :
  fetching (env st') = fetching (env st) ->
  hidden (dom st') = hidden (dom st) ->
  optionsContainer (dom st') = optionsContainer (dom st) ->
  phase st' = phase st.
Proof. unfold phase. by intros -> -> ->. Qed.

(** A start with a name whose load succeeds begins a fresh attempt. *)
Lemma start_then_load_ok value qs now st :
  JsString.trim value <> [] ->
  let st' := run [StartClick value; QuestionsSettled (ok_response qs) now]
               st in
  vars st' = fresh_vars qs now (JsString.trim value)
  /\ hidden (dom st') quizScreen = false
  /\ hidden (dom st') introScreen = true.
Proof.
  intros Hv. cbn -[step]. rewrite start_click_named by done. cbn [step].
  cbn [env with_env with_dom with_vars fetching put_fetching].
  rewrite Nat.add_1_r. unfold dispatch, ok_response.
  destruct (qs !! 0%nat) as [q|] eqn:Hq.
  - edestruct (loadQuestions_ok_some
                 {| status := lit "ok"; message := None;
                    data_questions := qs |})
      as (s' & Hrun & Hvars & _ & Hhid & _); [done|exact Hq|].
    rewrite Hrun, Hvars, Hhid. by destruct st as [[] d w].
  - edestruct (loadQuestions_ok_none
                 {| status := lit "ok"; message := None;
                    data_questions := qs |})
      as (s' & Hrun & Hvars & _ & _ & _ & _ & _ & Hhid & _);
      [done|exact Hq|].
    rewrite Hrun, Hvars, Hhid. by destruct st as [[] d w].
Qed.

(** Next on the last question (or with no question) finishes the quiz. *)
Lemma next_click_last now st :
  (length (questions (vars st)) <= currentIndex (vars st) + 1)%nat ->
  step (NextClick now) st = (finishQuiz now st).2.
Proof.
  intros Hlast. cbn [step]. unfold dispatch, next_click, bind at 1, get.
  cbv beta iota.
  destruct (Z.of_nat (currentIndex (vars st))
              <? Z.of_nat (length (questions (vars st))) - 1) eqn:Hlt.
  - apply Z.ltb_lt in Hlt. lia.
  - by destruct (finishQuiz_effect now st) as (st' & -> & _).
Qed.

(** Next before the last question moves to the following one and shows
    it. *)
Lemma next_click_more now st :
  (currentIndex (vars st) + 1 < length (questions (vars st)))%nat ->
  exists q,
    questions (vars st) !! (currentIndex (vars st) + 1)%nat = Some q
    /\ vars (step (NextClick now) st)
       = put_currentIndex (currentIndex (vars st) + 1) (vars st)
    /\ env (step (NextClick now) st) = env st
    /\ hidden (dom (step (NextClick now) st)) = hidden (dom st)
    /\ optionsContainer (dom (step (NextClick now) st))
       = List.map option_button (Question.options q).
Proof.
  intros Hmore.
  assert ((Z.of_nat (currentIndex (vars st))
             <? Z.of_nat (length (questions (vars st))) - 1) = true) as Hlt
    by (apply Z.ltb_lt; lia).
  set (st1 := with_vars (fun g => put_currentIndex (currentIndex g + 1) g)
                st).
  destruct (lookup_lt_is_Some_2 (questions (vars st1))
              (currentIndex (vars st1))) as [q Hq]; [cbn; lia|].
  destruct (showQuestion_some st1 q Hq)
    as (st' & Hrun & Hvars & Henv & Hhid & Hbs).
  assert (step (NextClick now) st = st') as ->.
  { cbn [step]. unfold dispatch, next_click, bind, get, set_var, modify.
    rewrite Hlt. fold st1. by rewrite Hrun. }
  exists q. by rewrite Hvars, Henv, Hhid, Hbs.
Qed.

End Effects.

(** ** The invariant holds in every reachable state *)

Section Invariant.

Implicit Types (st : State) (q : Question.t).

Lemma vars_dispatch h st : vars (dispatch h st) = vars (h st).2.
Proof. unfold dispatch. by destruct (h st) as [[[]|e] st']. Qed.

Lemma dom_dispatch h st : dom (dispatch h st) = dom (h st).2.
Proof. unfold dispatch. by destruct (h st) as [[[]|e] st']. Qed.

(** The invariant reads five components of the state only. *)
Lemma Inv_ext st st' :
  questions (vars st') = questions (vars st) ->
  currentIndex (vars st') = currentIndex (vars st) ->
  score (vars st') = score (vars st) ->
  breakdown (vars st') = breakdown (vars st) ->
  optionsContainer (dom st') = optionsContainer (dom st) ->
  Inv st -> Inv st'.
Proof.
  intros Hq Hc Hs Hb Ho [I1 I2 I3].
  split; rewrite ?Hq, ?Hc, ?Hs, ?Hb, ?Ho; done.
Qed.

Lemma count_correct_snoc (b : list Answer.t) (r : Answer.t) :
  count_correct (b ++ [r])
  = (count_correct b + if Answer.correct r then 1 else 0)%nat.
Proof.
  unfold count_correct. rewrite List.filter_app, length_app. cbn.
  by destruct (Answer.correct r).
Qed.

Lemma clickable_lookup (bs : list Button.t) i b :
  bs !! i = Some b -> Button.disabled b = false -> clickable bs = true.
Proof.
  intros Hb Hd. apply existsb_exists. exists b. split.
  - apply list_elem_of_In, list_elem_of_lookup. eauto.
  - by rewrite Hd.
Qed.

Lemma locked_not_clickable (bs : list Button.t) :
  forallb Button.disabled bs = true -> clickable bs = false.
Proof.
  unfold clickable. induction bs as [|b bs IH]; [done|]. cbn.
  intros [-> H]%andb_prop. by rewrite IH.
Qed.

Lemma sublist_take_le {A} (l : list A) n m :
  (n <= m)%nat -> take n l `sublist_of` take m l.
Proof.
  intros Hnm. replace n with (min n m) by lia.
  rewrite <- take_take. apply sublist_take.
Qed.

Lemma answerable_bounds ci bs :
  (ci <= answerable ci bs <= ci + 1)%nat.
Proof. unfold answerable. destruct (clickable bs); lia. Qed.

Lemma onclick_option_buttons q :
  List.map Button.onclick (List.map option_button (Question.options q))
  = option_labels q.
Proof. unfold option_labels. by rewrite List.map_map. Qed.

Lemma Inv_init : Inv init.
Proof.
  split; cbn; [done| |done].
  exists []. split; [constructor|apply sublist_nil_l].
Qed.

Lemma Inv_start_click value st : Inv st -> Inv (step (StartClick value) st).
Proof.
  apply Inv_ext; cbn [step]; rewrite ?vars_dispatch, ?dom_dispatch;
    destruct st as [g d w]; cbv [start_click bind get set_var set_dom
      set_env modify]; cbn; by destruct (JsString.trim value).
Qed.

Lemma Inv_score_settled failure st :
  Inv st -> Inv (step (ScoreSettled failure) st).
Proof.
  apply Inv_ext; cbn [step]; destruct (posting (env st)); try done;
    by destruct failure.
Qed.

Lemma Inv_option_click i st : Inv st -> Inv (step (OptionClick i) st).
Proof.
  intros HI. cbn [step].
  destruct (optionsContainer (dom st) !! i) as [btn|] eqn:Hbtn; [|done].
  destruct (Button.disabled btn) eqn:Hdis; [done|].
  destruct (questions (vars st) !! currentIndex (vars st)) as [q|] eqn:Hq.
  - destruct (handleAnswer_some st q i (Button.onclick btn) Hq)
      as (st' & Hrun & Hvars & _ & _ & Hlock & _ & Hclick).
    unfold dispatch. rewrite Hrun. destruct HI as [I1 (qs & I2 & I2') I3].
    split; rewrite Hvars; cbn.
    + rewrite count_correct_snoc, I1. done.
    + exists (qs ++ [q]). split.
      * apply Forall2_app; [done|]. by repeat constructor.
      * unfold answerable in *.
        rewrite (locked_not_clickable _ Hlock).
        rewrite (clickable_lookup _ _ _ Hbtn Hdis), Nat.add_0_r in I2'.
        rewrite Nat.add_1_r, (take_S_r _ _ _ Hq).
        by apply sublist_app.
    + intros q' Hq'. rewrite Hclick. by apply I3.
  - revert HI. apply Inv_ext; rewrite ?vars_dispatch, ?dom_dispatch;
      by rewrite handleAnswer_none.
Qed.

Lemma Inv_next_click now st : Inv st -> Inv (step (NextClick now) st).
Proof.
  intros HI. cbn [step]. unfold dispatch, next_click, bind at 1, get.
  cbv beta iota.
  destruct (Z.of_nat (currentIndex (vars st))
              <? Z.of_nat (length (questions (vars st))) - 1) eqn:Hlt.
  - apply Z.ltb_lt in Hlt.
    set (st1 := with_vars (fun g => put_currentIndex (currentIndex g + 1) g)
                  st).
    destruct (lookup_lt_is_Some_2 (questions (vars st1))
                (currentIndex (vars st1))) as [q Hq]; [cbn; lia|].
    destruct (showQuestion_some st1 q Hq)
      as (st' & Hrun & Hvars & _ & _ & Hbs).
    unfold bind, set_var, modify. fold st1. rewrite Hrun.
    destruct HI as [I1 (qs & I2 & I2') I3].
    split; rewrite Hvars; cbn; [done| |].
    + exists qs. split; [done|]. etrans; [exact I2'|].
      apply sublist_take_le.
      pose proof (answerable_bounds (currentIndex (vars st))
                    (optionsContainer (dom st))).
      pose proof (answerable_bounds (currentIndex (vars st) + 1)
                    (optionsContainer (dom st'))). lia.
    + intros q' Hq'. cbn in Hq. rewrite Hq in Hq'. injection Hq' as <-.
      rewrite Hbs. apply onclick_option_buttons.
  - destruct (finishQuiz_effect now st) as (st' & Hrun & Hvars & Hbs & _).
    revert HI. rewrite Hrun. apply Inv_ext; by rewrite ?Hvars, ?Hbs.
Qed.

Lemma Inv_questions_settled o now st :
  Inv st -> Inv (step (QuestionsSettled o now) st).
Proof.
  intros HI. cbn [step]. destruct (fetching (env st)) as [|n]; [done|].
  set (st0 := with_env (put_fetching n) st).
  assert (Inv st0) as HI0 by (revert HI; by apply Inv_ext).
  clearbody st0. clear HI. unfold dispatch.
  destruct (failed o) eqn:Hf.
  { rewrite loadQuestions_failed by done. revert HI0. by apply Inv_ext. }
  destruct o as [e|e|data]; try done.
  assert (forall st',
    vars st' = fresh_vars (data_questions data) now (username (vars st0)) ->
    (forall q, data_questions data !! 0%nat = Some q ->
       List.map Button.onclick (optionsContainer (dom st'))
       = option_labels q) ->
    Inv st') as Hfresh.
  { intros st' Hvars Hbs. split; rewrite Hvars; cbn; [done| |done].
    exists []. split; [constructor|apply sublist_nil_l]. }
  destruct (data_questions data !! 0%nat) as [q|] eqn:Hq.
  - destruct (loadQuestions_ok_some data now st0 q Hf Hq)
      as (st' & -> & Hvars & _ & _ & Hbs).
    apply Hfresh; [done|]. intros q' [= <-].
    rewrite Hbs. apply onclick_option_buttons.
  - destruct (loadQuestions_ok_none data now st0 Hf Hq)
      as (st' & -> & Hvars & _). by apply Hfresh.
Qed.

Lemma Inv_step ev st : Inv st -> Inv (step ev st).
Proof.
  destruct ev; auto using Inv_start_click, Inv_questions_settled,
    Inv_option_click, Inv_next_click, Inv_score_settled.
Qed.

(** Every state the page can reach satisfies the invariant. *)
Lemma Inv_run evs st : Inv st -> Inv (run evs st).
Proof.
  revert st. induction evs as [|ev evs IH]; intros st HI; [done|].
  cbn. apply IH, Inv_step, HI.
Qed.

End Invariant.

(** ** Properties of the session controller *)

(** *** Submitting an answer *)

(** C10 (frame of [handleAnswer]): a call never changes [questions],
    [currentIndex], [startTime] or [username].  When there is a current
    question it completes, appends exactly one record to [breakdown] and
    adds one to [score] exactly when the selected label equals
    [correct_label]; when there is none it throws before any write, so
    [breakdown] and [score] stay too. *)
Theorem handleAnswer_frame (st : State) (i : nat) (l : jsstring) :
  let r := handleAnswer i l st in
  questions (vars r.2) = questions (vars st)
  /\ currentIndex (vars r.2) = currentIndex (vars st)
  /\ startTime (vars r.2) = startTime (vars st)
  /\ username (vars r.2) = username (vars st)
  /\ match questions (vars st) !! currentIndex (vars st) with
     | Some q =>
         r.1 = Normal tt
         /\ breakdown (vars r.2) = breakdown (vars st) ++ [record_of q l]
         /\ score (vars r.2)
            = (score (vars st)
               + if JsString.eqb l (Question.correct_label q) then 1 else 0)%nat
     | None =>
         r.1 = Throw (JsError.undefined_read "correct_label")
         /\ breakdown (vars r.2) = breakdown (vars st)
         /\ score (vars r.2) = score (vars st)
     end.
Proof.
  cbv zeta.
  destruct (questions (vars st) !! currentIndex (vars st)) as [q|] eqn:Hq.
  - destruct (handleAnswer_some st q i l Hq) as (st' & -> & Hv & _).
    cbn. by rewrite Hv.
  - rewrite handleAnswer_none by done. by cbn.
Qed.

(** C2 (score invariant): in every state the page can reach, and in the
    state any further call of [handleAnswer] leaves behind, [score] equals
    the number of records in [breakdown] whose [correct] is true. *)
Theorem score_counts_correct_records (evs : list Event) (i : nat)
    (l : jsstring) :
  let st := run evs init in
  let st' := (handleAnswer i l st).2 in
  score (vars st) = count_correct (breakdown (vars st))
  /\ score (vars st') = count_correct (breakdown (vars st')).
Proof.
  cbv zeta. pose proof (inv_score _ (Inv_run evs init Inv_init)) as HI.
  split; [done|].
  destruct (questions (vars (run evs init))
              !! currentIndex (vars (run evs init))) as [q|] eqn:Hq.
  - destruct (handleAnswer_some _ q i l Hq) as (st' & -> & Hv & _).
    cbn. rewrite Hv. cbn. rewrite count_correct_snoc, HI. done.
  - by rewrite handleAnswer_none.
Qed.

(** Once the buttons are locked, option clicks dispatch nothing. *)
Lemma option_clicks_locked (js : list nat) (st : State) :
  forallb Button.disabled (optionsContainer (dom st)) = true ->
  run (List.map OptionClick js) st = st.
Proof.
  intros Hlock. induction js as [|j js IH]; [done|].
  cbn -[step]. replace (step (OptionClick j) st) with st; [done|].
  cbn. destruct (optionsContainer (dom st) !! j) as [b|] eqn:Hb; [|done].
  assert (Button.disabled b = true) as ->; [|done].
  eapply (proj1 (forallb_forall _ _) Hlock), list_elem_of_In,
    list_elem_of_lookup_2, Hb.
Qed.

(** An option click either leaves the variables and the document as they
    were, or records one answer and locks the buttons. *)
Lemma option_click_cases (i : nat) (st : State) :
  let st' := step (OptionClick i) st in
  (vars st' = vars st /\ dom st' = dom st)
  \/ (forallb Button.disabled (optionsContainer (dom st')) = true
      /\ length (breakdown (vars st'))
         = (length (breakdown (vars st)) + 1)%nat).
Proof.
  cbn. destruct (optionsContainer (dom st) !! i) as [b|]; [|by left].
  destruct (Button.disabled b); [by left|].
  destruct (questions (vars st) !! currentIndex (vars st)) as [q|] eqn:Hq.
  - destruct (handleAnswer_some st q i (Button.onclick b) Hq)
      as (st' & Hrun & Hv & _ & _ & Hlock & _).
    right. unfold dispatch. rewrite Hrun, Hv. split; [done|].
    cbn. by rewrite length_app.
  - left. unfold dispatch. by rewrite handleAnswer_none.
Qed.

Lemma option_clicks_one_record (js : list nat) (st : State) :
  (length (breakdown (vars (run (List.map OptionClick js) st)))
   <= length (breakdown (vars st)) + 1)%nat.
Proof.
  revert st. induction js as [|j js IH]; intros st; [cbn; lia|].
  cbn -[step].
  destruct (option_click_cases j st) as [[Hv _]|[Hlock Hlen]].
  - specialize (IH (step (OptionClick j) st)). rewrite Hv in IH. done.
  - rewrite option_clicks_locked by done. lia.
Qed.

(** C9 (one record per question): in every state the page can reach, the
    records of [breakdown] answer pairwise distinct questions, in question
    order, so there are never more records than questions; and however
    often the option buttons of the question on display are clicked, at
    most one record is added. *)
Theorem one_record_per_question (evs : list Event) (js : list nat) :
  let st := run evs init in
  (exists qs,
     Forall2 answers (breakdown (vars st)) qs
     /\ qs `sublist_of` questions (vars st))
  /\ (length (breakdown (vars st)) <= length (questions (vars st)))%nat
  /\ (length (breakdown (vars (run (List.map OptionClick js) st)))
      <= length (breakdown (vars st)) + 1)%nat.
Proof.
  cbv zeta.
  destruct (inv_answers _ (Inv_run evs init Inv_init)) as (qs & HF & Hsub).
  assert (qs `sublist_of` questions (vars (run evs init))) as Hsub'.
  { etrans; [exact Hsub|apply sublist_take]. }
  split; [by exists qs|]. split; [|apply option_clicks_one_record].
  rewrite (Forall2_length HF). by apply sublist_length.
Qed.

(** C1, as the code has it: [handleAnswer] does not compare the label with
    the options.  With a current question it completes for every label,
    appends the record of that label, adds one to [score] exactly when the
    label equals [correct_label], and locks the buttons.  The page itself
    never passes a foreign label: in every reachable state the click
    handler of each option button carries the label of an option of the
    current question. *)
Theorem handleAnswer_accepts_any_label (st : State) (q : Question.t)
    (i : nat) (l : jsstring) (evs : list Event) :
  questions (vars st) !! currentIndex (vars st) = Some q ->
  let r := handleAnswer i l st in
  (r.1 = Normal tt
   /\ breakdown (vars r.2) = breakdown (vars st) ++ [record_of q l]
   /\ Answer.correct (record_of q l)
      = JsString.eqb l (Question.correct_label q)
   /\ score (vars r.2)
      = (score (vars st)
         + if JsString.eqb l (Question.correct_label q) then 1 else 0)%nat
   /\ forallb Button.disabled (optionsContainer (dom r.2)) = true)
  /\ forall btn q',
       optionsContainer (dom (run evs init)) !! i = Some btn ->
       questions (vars (run evs init)) !! currentIndex (vars (run evs init))
       = Some q' ->
       Button.onclick btn ∈ option_labels q'.
Proof.
  intros Hq. cbv zeta. split.
  - destruct (handleAnswer_some st q i l Hq)
      as (st' & -> & Hv & _ & _ & Hlock & _).
    cbn. by rewrite Hv.
  - intros btn q' Hbtn Hq'.
    rewrite <- (inv_buttons _ (Inv_run evs init Inv_init) q' Hq').
    apply list_elem_of_In, in_map, list_elem_of_In.
    by eapply list_elem_of_lookup_2.
Qed.

(** The sample session after Ann's start has a first question, and the
    label [z], which no option carries, is recorded all the same. *)
Lemma handleAnswer_accepts_any_label_witness :
  let r := handleAnswer 0 (lit "z") Sample.started in
  r.1 = Normal tt
  /\ breakdown (vars r.2)
     = breakdown (vars Sample.started) ++ [record_of Sample.q1 (lit "z")].
Proof.
  destruct (handleAnswer_accepts_any_label Sample.started Sample.q1 0%nat
              (lit "z") [] eq_refl) as [(H1 & H2 & _) _].
  exact (conj H1 H2).
Defined.

(** C1 as stated fails: in the [Active] sample session the label [z] is
    no option label of the current question, and [handleAnswer] appends a
    record and locks the question. *)
Lemma unknown_label_is_recorded :
  let st := Sample.started in
  let st' := (handleAnswer 0 (lit "z") st).2 in
  phase st = Active
  /\ questions (vars st) !! currentIndex (vars st) = Some Sample.q1
  /\ ~ (lit "z" ∈ option_labels Sample.q1)
  /\ length (breakdown (vars st)) = 0%nat
  /\ length (breakdown (vars st')) = 1%nat
  /\ phase st' = Answered.
Proof.
  cbv zeta. repeat split; try (vm_compute; reflexivity).
  intros Hin. apply list_elem_of_In in Hin. vm_compute in Hin.
  by destruct Hin as [H|[H|[]]].
Qed.

(** *** Starting a session *)

(** C4, as the code has it: when the input is empty after trimming, the
    start handler stores the empty name in [username], shows the
    validation message and stops.  No request is issued; [questions],
    [currentIndex], [score], [startTime] and [breakdown], the rest of the
    document and the phase are as before. *)
Theorem empty_name_blocks_start (st : State) (value : jsstring) :
  JsString.trim value = [] ->
  let st' := step (StartClick value) st in
  st' = with_dom
          (put_text introError (lit "Please enter your name to start."))
          (with_vars (put_username []) st)
  /\ username (vars st') = []
  /\ questions (vars st') = questions (vars st)
  /\ currentIndex (vars st') = currentIndex (vars st)
  /\ score (vars st') = score (vars st)
  /\ startTime (vars st') = startTime (vars st)
  /\ breakdown (vars st') = breakdown (vars st)
  /\ env st' = env st
  /\ phase st' = phase st.
Proof.
  intros Ht. cbv zeta.
  assert (step (StartClick value) st
          = with_dom
              (put_text introError (lit "Please enter your name to start."))
              (with_vars (put_username []) st)) as ->.
  { cbn [step]. unfold dispatch, start_click, bind, set_var, modify, get.
    rewrite Ht. reflexivity. }
  by destruct st as [g d w].
Qed.

Lemma empty_name_blocks_start_witness :
  JsString.trim (lit "   ") = []
  /\ env (step (StartClick (lit "   ")) Sample.load_failed)
     = env Sample.load_failed.
Proof.
  split; [reflexivity|].
  apply (empty_name_blocks_start Sample.load_failed (lit "   ") eq_refl).
Defined.

(** C4 as stated fails: after Ann's failed first attempt the stored name is
    [Ann]; a start with a blank input replaces it by the empty string. *)
Lemma blank_start_overwrites_username :
  let st := Sample.load_failed in
  JsString.trim (lit "   ") = []
  /\ username (vars st) = lit "Ann"
  /\ username (vars (step (StartClick (lit "   ")) st)) = []
  /\ username (vars (step (StartClick (lit "   ")) st)) <> username (vars st).
Proof. cbv zeta. repeat split; try (vm_compute; reflexivity). done. Qed.

(** C3 (failed load): let a start with a non-blank name be followed by a
    load that fails, because the request or the JSON parse is rejected or
    because the payload's status is not ["ok"].  Then the failure is
    reported in an alert, and [questions], [currentIndex], [score],
    [breakdown] and [startTime], the screens, the buttons and the phase
    (so [Idle], if the session was idle) are as before the start.  A further
    start whose load succeeds begins a fresh attempt. *)
Theorem failed_load_keeps_session (st : State) (value : jsstring)
    (o : FetchOutcome) (now : Z) :
  JsString.trim value <> [] ->
  failed o = true ->
  let st' := run [StartClick value; QuestionsSettled o now] st in
  (questions (vars st') = questions (vars st)
   /\ currentIndex (vars st') = currentIndex (vars st)
   /\ score (vars st') = score (vars st)
   /\ breakdown (vars st') = breakdown (vars st)
   /\ startTime (vars st') = startTime (vars st))
  /\ alerts (env st')
     = alerts (env st)
         ++ [lit "Error loading questions: " ++ failure_message o]
  /\ (hidden (dom st') = hidden (dom st)
      /\ optionsContainer (dom st') = optionsContainer (dom st)
      /\ fetching (env st') = fetching (env st)
      /\ phase st' = phase st
      /\ (phase st = Idle -> phase st' = Idle))
  /\ forall value' qs now',
       JsString.trim value' <> [] ->
       let st'' :=
         run [StartClick value'; QuestionsSettled (ok_response qs) now'] st' in
       vars st'' = fresh_vars qs now' (JsString.trim value')
       /\ hidden (dom st'') quizScreen = false
       /\ hidden (dom st'') introScreen = true.
Proof.
  intros Hname Hfail. cbv zeta. split; [|split; [|split]].
  4: { intros value' qs now' Hname'. by apply start_then_load_ok. }
  all: cbn -[step]; rewrite start_click_named by done; cbn [step];
    cbn [env with_env with_dom with_vars fetching put_fetching];
    rewrite Nat.add_1_r; unfold dispatch;
    rewrite loadQuestions_failed by done.
  - by destruct st as [g d w].
  - by destruct st as [g d w].
  - assert (forall s, s = phase st -> s = phase st /\ (phase st = Idle -> s = Idle))
      as Hidle by (by intros s ->).
    repeat split; try apply Hidle; try apply phase_ext;
      by destruct st as [g d w].
Qed.

Lemma failed_load_keeps_session_witness :
  phase Sample.load_failed = Idle
  /\ vars Sample.load_failed = put_username (lit "Ann") (vars init)
  /\ alerts (env Sample.load_failed)
     = [lit "Error loading questions: Failed to fetch"].
Proof.
  destruct (failed_load_keeps_session init (lit "Ann") Sample.unreachable
              1000 ltac:(discriminate) eq_refl)
    as ((H1 & H2 & H3 & H4 & H5) & Ha & (_ & _ & _ & _ & Hp) & _).
  split; [exact (Hp eq_refl)|]. split; [|exact Ha].
  vm_compute. reflexivity.
Defined.

(** C5, as the code has it: when the provider answers ["ok"] with no
    question, [loadQuestions] completes without an exception leaving it.
    The variables are those of a fresh attempt with no question and the
    quiz screen is shown; [showQuestion] throws at the missing first
    question, and the [catch] reports that in an alert.  The session is not
    finished by this: the result screen is as before and nothing is posted.
    It is the next click on Next that finishes the quiz, with a total
    of 0. *)
Theorem empty_quiz_is_not_finished (st : State) (now now' : Z) :
  let r := loadQuestions (ok_response []) now st in
  let st' := step (NextClick now') r.2 in
  (r.1 = Normal tt
   /\ vars r.2 = fresh_vars [] now (username (vars st))
   /\ alerts (env r.2)
      = alerts (env st)
          ++ [lit "Error loading questions: "
                ++ JsError.message (JsError.undefined_read "question")]
   /\ hidden (dom r.2) quizScreen = false
   /\ hidden (dom r.2) resultScreen = hidden (dom st) resultScreen
   /\ posts (env r.2) = posts (env st))
  /\ hidden (dom st') resultScreen = false
  /\ exists elapsed,
       posts (env st')
       = posts (env st) ++
           [ {| ScorePost.username := username (vars st);
                ScorePost.correct := 0;
                ScorePost.total := 0;
                ScorePost.timeTaken := elapsed;
                ScorePost.breakdown := [] |} ].
Proof.
  cbv zeta. unfold ok_response.
  edestruct (loadQuestions_ok_none
               {| status := lit "ok"; message := None;
                  data_questions := [] |} now st)
    as (s' & Hrun & Hvars & Halerts & _ & _ & Hposts & _ & Hhid & _);
    [done|done|].
  rewrite Hrun. cbn [fst snd].
  split; [by rewrite Hvars, Halerts, Hposts, Hhid|].
  rewrite next_click_last by (rewrite Hvars; cbn; lia).
  destruct (finishQuiz_effect now' s')
    as (s'' & Hfin & Hvars' & _ & _ & _ & Hres & _ & _ & _ & Hposts' & _).
  rewrite Hfin. split; [done|]. eexists. cbn [snd].
  rewrite Hposts', Hposts, Hvars. reflexivity.
Qed.

(** C5 as stated fails: after a start that loads no question the session
    is on the quiz screen with an alert raised; the result screen is
    hidden and no score has been posted. *)
Lemma empty_quiz_stays_on_quiz_screen :
  let st := Sample.started_empty in
  questions (vars st) = []
  /\ phase st = Active
  /\ phase st <> Finished
  /\ hidden (dom st) quizScreen = false
  /\ hidden (dom st) resultScreen = true
  /\ posts (env st) = []
  /\ length (alerts (env st)) = 1%nat.
Proof. cbv zeta. repeat split; try (vm_compute; reflexivity). done. Qed.

(** *** Finishing *)

(** A counter converts to a Number that is not negative. *)
Lemma Number_of_nat_sign (n : nat) :
  match Number_of_nat n with
  | S754_zero s | S754_infinity s | S754_finite s _ _ => s = false
  | S754_nan => True
  end.
Proof.
  unfold Number_of_nat, Number.ofZ, binary_normalize.
  destruct (Z.of_nat n) as [|p|p] eqn:Hn; [done| |lia].
  unfold binary_round, binary_round_aux.
  destruct (shl_align _ _ _) as [mz ez].
  destruct (shr_fexp _ _ _ _ _) as [mrs e'].
  destruct (shr_fexp _ _ _ _ _) as [mrs' e''].
  destruct (shr_m mrs'); try done. by destruct (_ <=? _).
Qed.

(** C6 (no question, no crash): with an empty question list [finishQuiz]
    completes; the division by the length 0 yields no exception but the
    text [NaN], or [Infinity] for a positive score, in the place of the
    percentage. *)
Theorem finishQuiz_without_questions (st : State) (now : Z) :
  questions (vars st) = [] ->
  let r := finishQuiz now st in
  r.1 = Normal tt
  /\ exists percent,
       (percent = lit "NaN" \/ percent = lit "Infinity")
       /\ (score (vars st) = 0%nat -> percent = lit "NaN")
       /\ text (dom r.2) finalScoreP
          = username (vars st) ++ lit ", your final score: "
              ++ show_nat (score (vars st)) ++ lit "/" ++ lit "0"
              ++ lit " (" ++ percent ++ lit "%)".
Proof.
  intros Hq. cbv zeta.
  destruct (finishQuiz_effect now st)
    as (st' & -> & _ & _ & _ & _ & _ & Htext & _).
  split; [done|]. cbn [snd]. rewrite Htext, Hq. cbn [length].
  eexists. split; [|split; [|reflexivity]].
  - pose proof (Number_of_nat_sign (score (vars st))) as Hs.
    destruct (Number_of_nat (score (vars st))) as [s|s| |s m e];
      try subst s; by (left + right).
  - by intros ->.
Qed.

Lemma finishQuiz_without_questions_witness :
  (finishQuiz 2000 Sample.started_empty).1 = Normal tt.
Proof.
  apply (finishQuiz_without_questions Sample.started_empty 2000 eq_refl).
Defined.

Lemma locked_option_buttons (opts : list Opt.t) :
  locked (List.map option_button opts) = false.
Proof. by destruct opts. Qed.

Lemma phase_Answered (st : State) :
  phase st = Answered ->
  fetching (env st) = 0%nat
  /\ hidden (dom st) resultScreen = true
  /\ hidden (dom st) quizScreen = false.
Proof.
  unfold phase. destruct (fetching (env st)); [|done]. cbn.
  destruct (hidden (dom st) resultScreen); [|done].
  by destruct (hidden (dom st) quizScreen).
Qed.

(** C7 (advance): in a state that is [Answered], a click on Next does the
    following.  If [currentIndex] is before the last position of the
    question list, it grows by one, nothing else of the variables changes,
    nothing is posted and the phase is [Active] again.  Otherwise, and so
    when it is the last position, the handler runs [finishQuiz], which
    completes, posts the score and leaves the session [Finished]. *)
Theorem next_click_advances_or_finishes (st : State) (now : Z) :
  phase st = Answered ->
  let st' := step (NextClick now) st in
  ((currentIndex (vars st) + 1 < length (questions (vars st)))%nat ->
     vars st' = put_currentIndex (currentIndex (vars st) + 1) (vars st)
     /\ posts (env st') = posts (env st)
     /\ phase st' = Active)
  /\ ((length (questions (vars st)) <= currentIndex (vars st) + 1)%nat ->
        finishQuiz now st = (Normal tt, st')
        /\ vars st' = vars st
        /\ length (posts (env st')) = (length (posts (env st)) + 1)%nat
        /\ phase st' = Finished).
Proof.
  intros (Hfetch & Hres & Hquiz)%phase_Answered. cbv zeta. split.
  - intros Hmore.
    destruct (next_click_more now st Hmore)
      as (q & _ & Hvars & Henv & Hhid & Hbs).
    rewrite Hvars, Henv. repeat split.
    unfold phase. rewrite Henv, Hhid, Hbs, Hfetch, Hres, Hquiz.
    by rewrite locked_option_buttons.
  - intros Hlast. rewrite next_click_last by lia.
    destruct (finishQuiz_effect now st)
      as (st' & Hrun & Hvars & _ & _ & _ & Hres' & _ & _ & _ & Hposts
          & Hfetch' & _).
    rewrite Hrun. cbn [snd]. repeat split; [done| |].
    + rewrite Hposts, length_app. done.
    + unfold phase. by rewrite Hfetch', Hfetch, Hres'.
Qed.

(** Ann has answered the first of two questions: Next shows the second.
    She has answered the second: Next finishes. *)
Lemma next_click_advances_or_finishes_witness :
  (currentIndex (vars (step (NextClick 2000) Sample.answered)) = 1%nat
   /\ phase (step (NextClick 2000) Sample.answered) = Active)
  /\ phase (step (NextClick 3000) Sample.answered_last) = Finished.
Proof.
  split.
  - destruct (next_click_advances_or_finishes Sample.answered 2000 eq_refl)
      as [Hmore _].
    destruct Hmore as (Hv & _ & Hp); [vm_compute; lia|].
    split; [|exact Hp]. rewrite Hv. reflexivity.
  - destruct (next_click_advances_or_finishes Sample.answered_last 3000
                eq_refl) as [_ Hlast].
    apply Hlast. vm_compute. lia.
Defined.

Lemma missed_sublist (b : list Answer.t) :
  List.filter (fun r => negb (Answer.correct r)) b `sublist_of` b.
Proof.
  induction b as [|r b IH]; [constructor|]. cbn.
  destruct (Answer.correct r); cbn; by constructor.
Qed.

Lemma missed_incorrect (b : list Answer.t) :
  Forall (fun r => Answer.correct r = false)
    (List.filter (fun r => negb (Answer.correct r)) b).
Proof.
  induction b as [|r b IH]; [constructor|]. cbn.
  destruct (Answer.correct r) eqn:Hr; cbn; [done|]. by constructor.
Qed.

Lemma missed_complement (b : list Answer.t) :
  (length (List.filter (fun r => negb (Answer.correct r)) b)
   + count_correct b = length b)%nat.
Proof.
  unfold count_correct. induction b as [|r b IH]; [done|]. cbn.
  destruct (Answer.correct r); cbn; lia.
Qed.

(** *** The binary64 arithmetic of the summary

    Subtraction, division, multiplication, [Math.round] and
    [toFixed(1)] on the Numbers that [finishQuiz] meets, related to
    integer arithmetic. *)

Lemma Zdigits2_log2 (p : positive) : Zdigits2 (Zpos p) = Z.log2 (Zpos p) + 1.
Proof.
  cbn [Zdigits2]. induction p as [p IH|p IH|]; cbn [digits2_pos].
  - rewrite Pos2Z.inj_succ, IH. cbn [Z.log2]. destruct p; cbn; lia.
  - rewrite Pos2Z.inj_succ, IH. cbn [Z.log2]. destruct p; cbn; lia.
  - reflexivity.
Qed.

Lemma Zdigits2_bounds (m : Z) :
  0 < m -> 2 ^ (Zdigits2 m - 1) <= m < 2 ^ Zdigits2 m.
Proof.
  intros Hm. destruct m as [|p|p]; try lia.
  rewrite Zdigits2_log2. replace (Z.log2 (Z.pos p) + 1 - 1) with (Z.log2 (Z.pos p)) by lia.
  pose proof (Z.log2_spec (Z.pos p) ltac:(lia)). replace (Z.log2 (Z.pos p) + 1) with (Z.succ (Z.log2 (Z.pos p))) by lia. lia.
Qed.

Lemma Zdigits2_unique (m d : Z) :
  2 ^ (d - 1) <= m < 2 ^ d -> 0 < d -> Zdigits2 m = d.
Proof.
  intros Hm Hd. assert (0 < m) by (pose proof (Z.pow_pos_nonneg 2 (d - 1)); lia).
  destruct m as [|p|p]; try lia. rewrite Zdigits2_log2.
  rewrite (Z.log2_unique (Z.pos p) (d - 1)); try lia.
  replace (Z.succ (d - 1)) with d by lia. lia.
Qed.

Lemma shr_1_m (r : shr_record) :
  0 <= shr_m r -> shr_m (shr_1 r) = shr_m r / 2 /\ 0 <= shr_m (shr_1 r).
Proof.
  intros Hm. assert (shr_m (shr_1 r) = Z.div2 (shr_m r)) as ->.
  { destruct r as [m b s]. cbn in *. by destruct m as [|[p|p|]|p]. }
  rewrite Z.div2_div. split; [done|]. apply Z.div_pos; lia.
Qed.

Lemma pow2_xO (p : positive) : 2 ^ Zpos p~0 = 2 ^ Zpos p * 2 ^ Zpos p.
Proof. replace (Zpos p~0) with (Zpos p + Zpos p) by lia. apply Z.pow_add_r; lia. Qed.

Lemma pow2_xI (p : positive) : 2 ^ Zpos p~1 = 2 * (2 ^ Zpos p * 2 ^ Zpos p).
Proof.
  replace (Zpos p~1) with (1 + (Zpos p + Zpos p)) by lia.
  rewrite !Z.pow_add_r by lia. reflexivity.
Qed.

Lemma iter_pos_shr_m (p : positive) (r : shr_record) :
  0 <= shr_m r ->
  shr_m (SpecFloat.iter_pos shr_1 p r) = shr_m r / 2 ^ Zpos p
  /\ 0 <= shr_m (SpecFloat.iter_pos shr_1 p r).
Proof.
  revert r. induction p as [p IH|p IH|]; intros r Hr; cbn [SpecFloat.iter_pos].
  - destruct (shr_1_m r Hr) as [H1 H1'].
    destruct (IH _ H1') as [H2 H2']. destruct (IH _ H2') as [H3 H3'].
    split; [|done]. rewrite H3, H2, H1.
    pose proof (Z.pow_pos_nonneg 2 (Zpos p)).
    rewrite !Z.div_div by lia. by rewrite pow2_xI.
  - destruct (IH _ Hr) as [H2 H2']. destruct (IH _ H2') as [H3 H3'].
    split; [|done]. rewrite H3, H2.
    pose proof (Z.pow_pos_nonneg 2 (Zpos p)).
    rewrite !Z.div_div by lia. by rewrite pow2_xO.
  - destruct (shr_1_m r Hr) as [H1 H1']. by rewrite Z.pow_1_r.
Qed.

(** The flags stay clear when only zero bits are shifted out. *)
Lemma shr_1_exact (r : shr_record) :
  0 <= shr_m r -> shr_r r = false -> shr_s r = false -> shr_m r mod 2 = 0 ->
  shr_r (shr_1 r) = false /\ shr_s (shr_1 r) = false.
Proof.
  destruct r as [m b s]. cbn. intros Hm -> -> Hmod.
  destruct m as [|[p|p|]|p]; cbn; try done;
    exfalso; apply Z.mod_divide in Hmod as [k Hk]; lia.
Qed.

Lemma iter_pos_shr_exact (p : positive) (r : shr_record) :
  0 <= shr_m r -> shr_r r = false -> shr_s r = false ->
  shr_m r mod 2 ^ Zpos p = 0 ->
  shr_r (SpecFloat.iter_pos shr_1 p r) = false
  /\ shr_s (SpecFloat.iter_pos shr_1 p r) = false.
Proof.
  revert r. induction p as [p IH|p IH|]; intros r Hr Hb Hs Hmod;
    cbn [SpecFloat.iter_pos].
  - pose proof (Z.pow_pos_nonneg 2 (Zpos p) ltac:(lia) ltac:(lia)) as Hpos.
    rewrite pow2_xI in Hmod.
    apply Z.mod_divide in Hmod as [k Hk]; [|lia].
    destruct (shr_1_m r Hr) as [H1 H1'].
    destruct (shr_1_exact r Hr Hb Hs) as [Hb1 Hs1].
    { rewrite Hk. apply Z.mod_divide; [lia|]. exists (k * (2 ^ Z.pos p * 2 ^ Z.pos p)). lia. }
    assert (shr_m (shr_1 r) = k * (2 ^ Z.pos p * 2 ^ Z.pos p)) as Hm1.
    { rewrite H1, Hk. symmetry. apply Z.div_unique with 0; lia. }
    destruct (iter_pos_shr_m p _ H1') as [H2 H2'].
    destruct (IH _ H1' Hb1 Hs1) as [Hb2 Hs2].
    { rewrite Hm1. apply Z.mod_divide; [lia|]. exists (k * 2 ^ Z.pos p). lia. }
    apply IH; try done.
    rewrite H2, Hm1. rewrite Z.mul_assoc, Z.div_mul by lia.
    apply Z.mod_mul. lia.
  - pose proof (Z.pow_pos_nonneg 2 (Zpos p) ltac:(lia) ltac:(lia)) as Hpos.
    rewrite pow2_xO in Hmod.
    apply Z.mod_divide in Hmod as [k Hk]; [|lia].
    destruct (iter_pos_shr_m p _ Hr) as [H2 H2'].
    destruct (IH _ Hr Hb Hs) as [Hb2 Hs2].
    { rewrite Hk. apply Z.mod_divide; [lia|]. exists (k * 2 ^ Z.pos p). lia. }
    apply IH; try done.
    rewrite H2, Hk. rewrite Z.mul_assoc, Z.div_mul by lia.
    apply Z.mod_mul. lia.
  - rewrite Z.pow_1_r in Hmod. by apply shr_1_exact.
Qed.

Lemma fexp_normal (e : Z) : -1074 <= e - 53 -> fexp 53 1024 e = e - 53.
Proof. unfold fexp, emin. lia. Qed.

Lemma shr_spec (mx ex n : Z) (lx : location) :
  0 < mx -> 0 <= n ->
  exists rec,
    shr (shr_record_of_loc mx lx) ex n = (rec, ex + n)
    /\ shr_m rec = mx / 2 ^ n
    /\ (lx = loc_Exact -> mx mod 2 ^ n = 0 ->
        loc_of_shr_record rec = loc_Exact).
Proof.
  intros Hmx Hn.
  assert (shr_m (shr_record_of_loc mx lx) = mx) as Hm
    by (by destruct lx as [|[]]).
  destruct n as [|p|p]; [| |lia].
  - exists (shr_record_of_loc mx lx). cbn [shr].
    rewrite Z.add_0_r, Hm, Z.pow_0_r, Z.div_1_r. repeat split.
    by intros ->.
  - exists (SpecFloat.iter_pos shr_1 p (shr_record_of_loc mx lx)). cbn [shr].
    destruct (iter_pos_shr_m p (shr_record_of_loc mx lx)) as [H1 _]; [lia|].
    rewrite H1, Hm. repeat split. intros -> Hmod.
    destruct (iter_pos_shr_exact p (shr_record_of_loc mx loc_Exact))
      as [Hr Hs]; try done; [cbn; lia|].
    destruct (SpecFloat.iter_pos _ _ _) as [m r s]. cbn in *. by subst.
Qed.

Lemma round_nearest_even_cases (m : Z) (l : location) :
  (round_nearest_even m l = m \/ round_nearest_even m l = m + 1)
  /\ (l = loc_Exact -> round_nearest_even m l = m).
Proof.
  destruct l as [|[]]; cbn; try (split; [by left|done]).
  - destruct (Z.even m); split; auto; done.
  - split; [by right|done].
Qed.

Lemma round_aux_spec (mx ex : Z) (lx : location) :
  0 < mx ->
  53 <= Zdigits2 mx ->
  -1074 <= ex + (Zdigits2 mx - 53) < 971 ->
  exists m1,
    (m1 = mx / 2 ^ (Zdigits2 mx - 53) \/ m1 = mx / 2 ^ (Zdigits2 mx - 53) + 1)
    /\ (lx = loc_Exact -> mx mod 2 ^ (Zdigits2 mx - 53) = 0 ->
        m1 = mx / 2 ^ (Zdigits2 mx - 53))
    /\ 2 ^ 52 <= mx / 2 ^ (Zdigits2 mx - 53) < 2 ^ 53
    /\ binary_round_aux 53 1024 false mx ex lx
       = normal53 m1 (ex + (Zdigits2 mx - 53)).
Proof.
  intros Hmx HD HE.
  pose proof (Zdigits2_bounds mx Hmx) as Hb.
  remember (Zdigits2 mx - 53) as n eqn:Hn.
  assert (Zdigits2 mx = n + 53) as HDn by lia. rewrite HDn in *. clear Hn.
  assert (0 < 2 ^ n) as Hpn by (apply Z.pow_pos_nonneg; lia).
  assert (2 ^ 52 <= mx / 2 ^ n < 2 ^ 53) as Hms.
  { replace (n + 53 - 1) with (n + 52) in Hb by lia.
    rewrite !Z.pow_add_r in Hb by lia. split.
    - apply Z.div_le_lower_bound; lia.
    - apply Z.div_lt_upper_bound; lia. }
  unfold binary_round_aux, shr_fexp. rewrite HDn.
  rewrite (fexp_normal (n + 53 + ex)) by lia.
  replace (n + 53 + ex - 53 - ex) with n by lia.
  destruct (shr_spec mx ex n lx Hmx ltac:(lia)) as (rec & -> & Hrec & Hex).
  destruct (round_nearest_even_cases (shr_m rec) (loc_of_shr_record rec))
    as [Hcases Hexact].
  set (mr := round_nearest_even (shr_m rec) (loc_of_shr_record rec)) in *.
  rewrite Hrec in Hcases.
  exists mr. split; [done|]. split.
  { intros Hl Hmod. rewrite <- Hrec. by apply Hexact, Hex. }
  split; [done|].
  unfold normal53. destruct (mr <? 2 ^ 53) eqn:Hlt.
  - apply Z.ltb_lt in Hlt.
    rewrite (Zdigits2_unique mr 53) by lia.
    rewrite fexp_normal by lia.
    replace (53 + (ex + n) - 53 - (ex + n)) with 0 by lia.
    cbn [shr shr_record_of_loc shr_m].
    destruct mr as [|p|p]; try lia.
    replace (ex + n <=? 1024 - 53) with true by (symmetry; apply Z.leb_le; lia).
    reflexivity.
  - apply Z.ltb_ge in Hlt. assert (mr = 2 ^ 53) as -> by lia.
    rewrite (Zdigits2_unique (2 ^ 53) 54) by lia.
    rewrite fexp_normal by lia.
    replace (54 + (ex + n) - 53 - (ex + n)) with 1 by lia.
    change (2 ^ 53) with 9007199254740992.
    cbn [shr shr_record_of_loc shr_m SpecFloat.iter_pos shr_1 orb].
    replace (ex + n + 1 <=? 1024 - 53) with true
      by (symmetry; apply Z.leb_le; lia).
    reflexivity.
Qed.

Lemma Pos_iter_xO (p d : positive) :
  Zpos (Pos.iter xO p d) = Zpos p * 2 ^ Zpos d.
Proof.
  induction d as [|d IH] using Pos.peano_ind.
  - cbn. lia.
  - rewrite Pos.iter_succ, Pos2Z.inj_xO, IH, Pos2Z.inj_succ, Z.pow_succ_r by lia.
    lia.
Qed.

Lemma Zdigits2_shift (m k : Z) :
  0 < m -> 0 <= k -> Zdigits2 (m * 2 ^ k) = Zdigits2 m + k.
Proof.
  intros Hm Hk. pose proof (Zdigits2_bounds m Hm) as Hb.
  assert (0 < Zdigits2 m) by (destruct m; cbn in *; lia).
  assert (0 < 2 ^ k) by (apply Z.pow_pos_nonneg; lia).
  apply Zdigits2_unique; [|lia].
  replace (Zdigits2 m + k - 1) with (Zdigits2 m - 1 + k) by lia.
  rewrite !Z.pow_add_r by lia. nia.
Qed.

Lemma Zdigits2_range (z : Z) : 0 < z < 2 ^ 53 -> 0 < Zdigits2 z <= 53.
Proof.
  intros Hz. pose proof (Zdigits2_bounds z ltac:(lia)) as Hb.
  split; [destruct z; cbn in *; lia|].
  destruct (Z_lt_le_dec 53 (Zdigits2 z)) as [Hgt|]; [|done].
  assert (2 ^ 53 <= 2 ^ (Zdigits2 z - 1)) by (apply Z.pow_le_mono_r; lia).
  lia.
Qed.

Lemma round_aux_exact (z i : Z) :
  0 < z < 2 ^ 53 -> 53 - Zdigits2 z <= i -> 0 <= i ->
  binary_round_aux 53 1024 false (z * 2 ^ i) (- i) loc_Exact = exact53 z.
Proof.
  intros Hz Hi Hi0. pose proof (Zdigits2_range z Hz) as HD.
  assert (0 < 2 ^ i) as Hpi by (apply Z.pow_pos_nonneg; lia).
  assert (Zdigits2 (z * 2 ^ i) = Zdigits2 z + i) as Hdig
    by (apply Zdigits2_shift; lia).
  destruct (round_aux_spec (z * 2 ^ i) (- i) loc_Exact) as
    (m1 & _ & Hex & Hms & ->); rewrite ?Hdig; try nia; try lia.
  rewrite Hdig in Hex, Hms.
  remember (Zdigits2 z + i - 53) as n eqn:Hn.
  assert (2 ^ i = 2 ^ (53 - Zdigits2 z) * 2 ^ n) as Hsplit.
  { rewrite <- Z.pow_add_r by lia. f_equal. lia. }
  assert (0 < 2 ^ n) by (apply Z.pow_pos_nonneg; lia).
  assert (z * 2 ^ i / 2 ^ n = z * 2 ^ (53 - Zdigits2 z)) as Hdiv.
  { rewrite Hsplit, Z.mul_assoc. apply Z.div_mul. lia. }
  rewrite Hex; [|done|].
  2:{ rewrite Hsplit, Z.mul_assoc. apply Z.mod_mul. lia. }
  rewrite Hdiv in *. unfold normal53, exact53.
  replace (z * 2 ^ (53 - Zdigits2 z) <? 2 ^ 53) with true
    by (symmetry; apply Z.ltb_lt; lia).
  f_equal. lia.
Qed.

Lemma binary_round_exact (z k : Z) :
  0 < z < 2 ^ 53 -> 0 <= k ->
  binary_round 53 1024 false (Z.to_pos (z * 2 ^ k)) (- k) = exact53 z.
Proof.
  intros Hz Hk. unfold binary_round.
  pose proof (Zdigits2_range z Hz) as HD.
  assert (0 < 2 ^ k) as Hpk by (apply Z.pow_pos_nonneg; lia).
  assert (0 < z * 2 ^ k) as HM by nia.
  assert (Z.pos (digits2_pos (Z.to_pos (z * 2 ^ k))) = Zdigits2 z + k) as ->.
  { rewrite <- Zdigits2_shift by lia. destruct (z * 2 ^ k); cbn; lia. }
  rewrite fexp_normal by lia. unfold shl_align.
  destruct (Zdigits2 z + k + - k - 53 - - k) as [|d|d] eqn:Hd.
  - rewrite Z2Pos.id by lia. apply round_aux_exact; lia.
  - rewrite Z2Pos.id by lia. apply round_aux_exact; lia.
  - rewrite Pos_iter_xO, Z2Pos.id by lia.
    rewrite <- Z.mul_assoc, <- Z.pow_add_r by lia.
    replace (Zdigits2 z + k + - k - 53) with (- (k + Z.pos d)) by lia.
    apply round_aux_exact; lia.
Qed.

Lemma ofZ_exact (z : Z) : 0 < z < 2 ^ 53 -> Number.ofZ z = exact53 z.
Proof.
  intros Hz. unfold Number.ofZ, binary_normalize.
  destruct z as [|p|p]; try lia.
  rewrite <- (binary_round_exact (Z.pos p) 0) by lia.
  f_equal. cbn. lia.
Qed.

Lemma ofZ_0 : Number.ofZ 0 = S754_zero false.
Proof. reflexivity. Qed.

Lemma Zdigits2_mono (a b : Z) : 0 < a <= b -> Zdigits2 a <= Zdigits2 b.
Proof.
  intros H. destruct a as [|p|p], b as [|q|q]; try lia.
  rewrite !Zdigits2_log2. pose proof (Z.log2_le_mono (Z.pos p) (Z.pos q)). lia.
Qed.

Lemma exact_mantissa (z : Z) :
  0 < z < 2 ^ 53 ->
  Z.pos (Z.to_pos (z * 2 ^ (53 - Zdigits2 z))) = z * 2 ^ (53 - Zdigits2 z)
  /\ 2 ^ 52 <= z * 2 ^ (53 - Zdigits2 z) < 2 ^ 53.
Proof.
  intros Hz. pose proof (Zdigits2_range z Hz) as HD.
  pose proof (Zdigits2_bounds z ltac:(lia)) as Hb.
  assert (0 < 2 ^ (53 - Zdigits2 z)) as Hp by (apply Z.pow_pos_nonneg; lia).
  assert (2 ^ 52 = 2 ^ (Zdigits2 z - 1) * 2 ^ (53 - Zdigits2 z)) as H52.
  { rewrite <- Z.pow_add_r by lia. f_equal. lia. }
  assert (2 ^ 53 = 2 ^ Zdigits2 z * 2 ^ (53 - Zdigits2 z)) as H53.
  { rewrite <- Z.pow_add_r by lia. f_equal. lia. }
  split; [rewrite Z2Pos.id; nia|]. rewrite H52, H53. nia.
Qed.

Lemma shl_align_same (m : positive) (e : Z) : shl_align m e e = (m, e).
Proof. unfold shl_align. by rewrite Z.sub_diag. Qed.

(** Subtraction of integers below 2^53 is exact. *)
Lemma sub_ofZ (a b : Z) :
  0 <= b <= a -> a < 2 ^ 53 ->
  Number.sub (Number.ofZ a) (Number.ofZ b) = Number.ofZ (a - b).
Proof.
  intros Hab Ha.
  destruct (Z.eq_dec b 0) as [->|Hb0].
  { rewrite Z.sub_0_r, ofZ_0. destruct (Z.eq_dec a 0) as [->|Ha0]; [done|].
    rewrite ofZ_exact by lia. reflexivity. }
  destruct (Z.eq_dec a b) as [->|Hne].
  { rewrite Z.sub_diag, ofZ_0, ofZ_exact by lia. unfold exact53, Number.sub, SFsub.
    rewrite Z.min_id, shl_align_same. cbn [fst cond_Zopp].
    by rewrite Z.sub_diag. }
  rewrite !ofZ_exact by lia.
  pose proof (Zdigits2_range a ltac:(lia)) as HDa.
  pose proof (Zdigits2_range b ltac:(lia)) as HDb.
  pose proof (Zdigits2_mono b a ltac:(lia)) as Hmono.
  destruct (exact_mantissa a ltac:(lia)) as [Hma _].
  destruct (exact_mantissa b ltac:(lia)) as [Hmb _].
  unfold exact53 at 1 2. unfold Number.sub, SFsub.
  rewrite Z.min_r by lia. cbn [cond_Zopp].
  assert (Z.pos (shl_align (Z.to_pos (a * 2 ^ (53 - Zdigits2 a)))
                   (Zdigits2 a - 53) (Zdigits2 b - 53)).1
          = a * 2 ^ (53 - Zdigits2 b)) as ->.
  { unfold shl_align.
    destruct (Zdigits2 b - 53 - (Zdigits2 a - 53)) as [|d|d] eqn:Hd;
      cbn [fst]; try lia.
    - rewrite Hma. do 2 f_equal. lia.
    - rewrite Pos_iter_xO, Hma, <- Z.mul_assoc, <- Z.pow_add_r by lia.
      do 2 f_equal. lia. }
  assert (Z.pos (shl_align (Z.to_pos (b * 2 ^ (53 - Zdigits2 b)))
                   (Zdigits2 b - 53) (Zdigits2 b - 53)).1
          = b * 2 ^ (53 - Zdigits2 b)) as ->.
  { by rewrite shl_align_same. }
  rewrite <- Z.mul_sub_distr_r.
  assert (0 < 2 ^ (53 - Zdigits2 b)) as Hp by (apply Z.pow_pos_nonneg; lia).
  unfold binary_normalize.
  destruct ((a - b) * 2 ^ (53 - Zdigits2 b)) as [|p|p] eqn:Hp'; try nia.
  replace (Zdigits2 b - 53) with (- (53 - Zdigits2 b)) by lia.
  replace p with (Z.to_pos ((a - b) * 2 ^ (53 - Zdigits2 b)))
    by (rewrite Hp'; reflexivity).
  apply binary_round_exact; lia.
Qed.

(** Division of two integers below 2^53: the quotient is cut to 53 bits
    at the exponent [- K] and then kept or moved up by one unit. *)
Lemma div_ofZ (a b : Z) :
  0 < a < 2 ^ 53 -> 0 < b < 2 ^ 53 ->
  exists n m1,
    (n = 0 \/ n = 1)
    /\ 2 ^ 52 <= a * 2 ^ (53 + Zdigits2 b - Zdigits2 a - n) / b < 2 ^ 53
    /\ (m1 = a * 2 ^ (53 + Zdigits2 b - Zdigits2 a - n) / b
        \/ m1 = a * 2 ^ (53 + Zdigits2 b - Zdigits2 a - n) / b + 1)
    /\ Number.div (Number.ofZ a) (Number.ofZ b)
       = normal53 m1 (- (53 + Zdigits2 b - Zdigits2 a - n)).
Proof.
  intros Ha Hb. rewrite !ofZ_exact by lia.
  pose proof (Zdigits2_range a Ha) as HDa.
  pose proof (Zdigits2_range b Hb) as HDb.
  destruct (exact_mantissa a Ha) as [Hma Hra].
  destruct (exact_mantissa b Hb) as [Hmb Hrb].
  set (ma := a * 2 ^ (53 - Zdigits2 a)) in *.
  set (mb := b * 2 ^ (53 - Zdigits2 b)) in *.
  unfold exact53. fold ma mb. unfold Number.div, SFdiv, SFdiv_core_binary.
  rewrite Hma, Hmb.
  assert (Zdigits2 ma = 53) as -> by (apply Zdigits2_unique; simpl; lia).
  assert (Zdigits2 mb = 53) as -> by (apply Zdigits2_unique; simpl; lia).
  change Number.prec with 53. change Number.emax with 1024.
  change (xorb false false) with false.
  rewrite (fexp_normal (53 + (Zdigits2 a - 53) - (53 + (Zdigits2 b - 53))))
    by lia.
  rewrite Z.min_l by lia.
  replace (Zdigits2 a - 53 - (Zdigits2 b - 53)
           - (53 + (Zdigits2 a - 53) - (53 + (Zdigits2 b - 53)) - 53))
    with 53 by lia.
  rewrite Z.shiftl_mul_pow2 by lia.
  pose proof (Z_div_mod (ma * 2 ^ 53) mb ltac:(lia)) as Hdm.
  destruct (Z.div_eucl (ma * 2 ^ 53) mb) as [q r] eqn:Hqr.
  assert (q = ma * 2 ^ 53 / mb) as Hq by (unfold Z.div; by rewrite Hqr).
  assert (2 ^ 52 <= q < 2 ^ 54) as Hqb.
  { rewrite Hq. split.
    - apply Z.div_le_lower_bound; [lia|].
      change (2 ^ 53) with (2 * 2 ^ 52) in *. nia.
    - apply Z.div_lt_upper_bound; [lia|].
      change (2 ^ 54) with (2 ^ 53 * 2) in *.
      change (2 ^ 53) with (2 * 2 ^ 52) in *. nia. }
  assert (Zdigits2 q = 53 \/ Zdigits2 q = 54) as HDq.
  { destruct (Z_lt_le_dec q (2 ^ 53)).
    - left. apply Zdigits2_unique; lia.
    - right. apply Zdigits2_unique; lia. }
  destruct (round_aux_spec q
              (53 + (Zdigits2 a - 53) - (53 + (Zdigits2 b - 53)) - 53)
              (new_location mb r))
    as (m1 & Hm1 & _ & Hms & ->); try lia.
  remember (Zdigits2 q - 53) as n eqn:Hn.
  exists n, m1.
  assert (0 < 2 ^ n) as Hpn by (apply Z.pow_pos_nonneg; lia).
  assert (q / 2 ^ n = a * 2 ^ (53 + Zdigits2 b - Zdigits2 a - n) / b) as Hfl.
  { rewrite Hq, Z.div_div by lia. unfold ma, mb.
    set (j := 53 - Zdigits2 b + n).
    assert (0 < 2 ^ j) by (apply Z.pow_pos_nonneg; lia).
    replace (a * 2 ^ (53 - Zdigits2 a) * 2 ^ 53)
      with (a * 2 ^ (53 + Zdigits2 b - Zdigits2 a - n) * 2 ^ j).
    2:{ rewrite <- !Z.mul_assoc, <- !Z.pow_add_r by lia.
        do 2 f_equal. lia. }
    replace (b * 2 ^ (53 - Zdigits2 b) * 2 ^ n) with (b * 2 ^ j).
    2:{ rewrite <- Z.mul_assoc, <- Z.pow_add_r by lia. reflexivity. }
    apply Z.div_mul_cancel_r; lia. }
  rewrite Hfl in *. repeat split; try lia. f_equal. lia.
Qed.

Lemma pow2_succ (k : Z) : 0 <= k -> 2 ^ (k + 1) = 2 * 2 ^ k.
Proof. intros. rewrite Z.pow_add_r by lia. change (2 ^ 1) with 2. ring. Qed.

Lemma pow2_pred (k : Z) : 1 <= k -> 2 ^ k = 2 * 2 ^ (k - 1).
Proof. intros. rewrite <- pow2_succ by lia. f_equal. lia. Qed.

(** [Math.round] of a Number with 53 significant bits and a negative
    exponent. *)
Lemma Math_round_fin (m K : Z) :
  2 ^ 52 <= m <= 2 ^ 53 -> 2 <= K ->
  Number.Math_round (normal53 m (- K))
  = Number.ofZ ((2 * m + 2 ^ K) / 2 ^ (K + 1)).
Proof.
  intros Hm HK. unfold normal53, Number.Math_round.
  destruct (m <? 2 ^ 53) eqn:Hlt.
  - apply Z.ltb_lt in Hlt.
    destruct (0 <=? - K) eqn:H0; [apply Z.leb_le in H0; lia|].
    rewrite Z.opp_involutive. cbn [cond_Zopp].
    rewrite Z2Pos.id by lia.
    replace (K + 1) with (- - K + 1) by lia. rewrite Z.opp_involutive.
    destruct (_ =? 0) eqn:Hr; [|reflexivity].
    apply Z.eqb_eq in Hr. by rewrite Hr.
  - apply Z.ltb_ge in Hlt. assert (m = 2 ^ 53) as -> by lia.
    destruct (0 <=? - K + 1) eqn:H0; [apply Z.leb_le in H0; lia|].
    cbn [cond_Zopp]. rewrite Z2Pos.id by lia.
    replace (- (- K + 1)) with (K - 1) by lia.
    replace (K - 1 + 1) with K by lia.
    assert ((2 * 2 ^ 52 + 2 ^ (K - 1)) / 2 ^ K
            = (2 * 2 ^ 53 + 2 ^ K) / 2 ^ (K + 1)) as ->.
    { assert (0 < 2 ^ K) by (apply Z.pow_pos_nonneg; lia).
      rewrite (pow2_succ K) by lia.
      replace (2 * 2 ^ 53 + 2 ^ K) with (2 * (2 * 2 ^ 52 + 2 ^ (K - 1))).
      2:{ rewrite (pow2_pred K) by lia.
          change (2 ^ 53) with (2 * 2 ^ 52). ring. }
      rewrite Z.div_mul_cancel_l by lia. reflexivity. }
    destruct (_ =? 0) eqn:Hr; [|reflexivity].
    apply Z.eqb_eq in Hr. by rewrite Hr.
Qed.

(** Rounding a quotient by 1000 that was cut to [K >= 10] binary places:
    the result is the nearest whole number of the exact quotient. *)
Lemma round_of_cut (d K m : Z) :
  0 <= d -> 10 <= K ->
  m = d * 2 ^ K / 1000 \/ m = d * 2 ^ K / 1000 + 1 ->
  (2 * m + 2 ^ K) / 2 ^ (K + 1) = (d + 500) / 1000.
Proof.
  intros Hd HK Hm.
  assert (1024 <= 2 ^ K) as Hp.
  { change 1024 with (2 ^ 10). apply Z.pow_le_mono_r; lia. }
  pose proof (pow2_pred K ltac:(lia)) as Hh.
  pose proof (pow2_succ K ltac:(lia)) as Hs.
  pose proof (Z.div_mod (d * 2 ^ K) 1000 ltac:(lia)) as Hdm.
  pose proof (Z.mod_pos_bound (d * 2 ^ K) 1000 ltac:(lia)) as Hmb.
  pose proof (Z.div_mod (d + 500) 1000 ltac:(lia)) as HT.
  pose proof (Z.mod_pos_bound (d + 500) 1000 ltac:(lia)) as HTb.
  set (T := (d + 500) / 1000) in *.
  set (V := d * 2 ^ K / 1000) in *.
  set (h := 2 ^ (K - 1)) in *.
  symmetry. apply Z.div_unique with (r := 2 * m + 2 ^ K - 2 ^ (K + 1) * T);
    [|lia].
  left. rewrite Hs, Hh. nia.
Qed.

Lemma Zdigits2_lt (z k : Z) : 0 < z < 2 ^ k -> 0 <= k -> Zdigits2 z <= k.
Proof.
  intros Hz Hk. pose proof (Zdigits2_bounds z ltac:(lia)) as Hb.
  destruct (Z_lt_le_dec k (Zdigits2 z)) as [Hlt|]; [|lia].
  assert (2 ^ k <= 2 ^ (Zdigits2 z - 1)) by (apply Z.pow_le_mono_r; lia).
  lia.
Qed.

(** The elapsed time of the code is the whole second nearest to the
    difference of the two clock readings. *)
Lemma elapsed_seconds_nearest (now : Z) (start : option Z) :
  0 <= default 0 start <= now -> now < 2 ^ 52 ->
  elapsed_seconds now start
  = Number.ofZ (nearest_second (now - default 0 start)).
Proof.
  intros Hs Hn. unfold elapsed_seconds, elapsed_ms, nearest_second.
  assert (match start with
          | Some t => Number.ofZ t
          | None => S754_zero false
          end = Number.ofZ (default 0 start)) as ->
    by (by destruct start).
  set (s := default 0 start) in *.
  rewrite sub_ofZ by lia.
  destruct (Z.eq_dec (now - s) 0) as [->|Hd]; [reflexivity|].
  destruct (div_ofZ (now - s) 1000) as (n & m1 & Hn01 & Hb & Hm1 & ->);
    [lia | lia |].
  change (Zdigits2 1000) with 10 in *.
  pose proof (Zdigits2_lt (now - s) 52 ltac:(lia) ltac:(lia)) as HD.
  rewrite Math_round_fin by lia.
  f_equal. apply round_of_cut; [lia | lia | done].
Qed.

(** Multiplication of a Number with 53 significant bits by an integer
    below 2^53: the product of the two significands is cut to 53 bits and
    then kept or moved up by one unit. *)
Lemma mul_fin_ofZ (m1 E c : Z) :
  2 ^ 52 <= m1 <= 2 ^ 53 -> 0 < c < 2 ^ 53 -> -900 <= E <= 0 ->
  exists n m2,
    (n = 52 \/ n = 53)
    /\ 2 ^ 52 <= m1 * (c * 2 ^ (53 - Zdigits2 c)) / 2 ^ n < 2 ^ 53
    /\ (m2 = m1 * (c * 2 ^ (53 - Zdigits2 c)) / 2 ^ n
        \/ m2 = m1 * (c * 2 ^ (53 - Zdigits2 c)) / 2 ^ n + 1)
    /\ Number.mul (normal53 m1 E) (Number.ofZ c)
       = normal53 m2 (E + (Zdigits2 c - 53) + n).
Proof.
  intros Hm Hc HE. rewrite ofZ_exact by lia.
  pose proof (Zdigits2_range c Hc) as HDc.
  destruct (exact_mantissa c Hc) as [Hmc Hrc].
  set (mc := c * 2 ^ (53 - Zdigits2 c)) in *.
  unfold exact53. fold mc. unfold normal53, Number.mul, SFmul.
  change Number.prec with 53. change Number.emax with 1024.
  destruct (m1 <? 2 ^ 53) eqn:Hlt.
  - apply Z.ltb_lt in Hlt.
    change (xorb false false) with false.
    rewrite Pos2Z.inj_mul, Hmc, Z2Pos.id by lia.
    assert (2 ^ 104 <= m1 * mc < 2 ^ 106) as HP.
    { change (2 ^ 104) with (2 ^ 52 * 2 ^ 52).
      change (2 ^ 106) with (2 ^ 53 * 2 ^ 53). nia. }
    assert (Zdigits2 (m1 * mc) = 105 \/ Zdigits2 (m1 * mc) = 106) as HD.
    { destruct (Z_lt_le_dec (m1 * mc) (2 ^ 105)).
      - left. apply Zdigits2_unique; simpl; lia.
      - right. apply Zdigits2_unique; simpl; lia. }
    destruct (round_aux_spec (m1 * mc) (E + (Zdigits2 c - 53)) loc_Exact)
      as (m2 & Hm2 & _ & Hms & ->); try lia.
    exists (Zdigits2 (m1 * mc) - 53), m2. repeat split; try lia.
  - apply Z.ltb_ge in Hlt. assert (m1 = 2 ^ 53) as -> by lia.
    change (xorb false false) with false.
    rewrite Pos2Z.inj_mul, Hmc, Z2Pos.id by lia.
    assert (Zdigits2 (2 ^ 52 * mc) = 105) as HD.
    { apply Zdigits2_unique; [|lia].
      change (2 ^ (105 - 1)) with (2 ^ 52 * 2 ^ 52).
      change (2 ^ 105) with (2 ^ 52 * 2 ^ 53). nia. }
    destruct (round_aux_spec (2 ^ 52 * mc) (E + 1 + (Zdigits2 c - 53))
                loc_Exact)
      as (m2 & Hm2 & _ & Hms & ->); try lia.
    rewrite HD in *. change (105 - 53) with 52 in *.
    assert (2 ^ 53 * mc / 2 ^ 53 = 2 ^ 52 * mc / 2 ^ 52) as Heq.
    { rewrite !(Z.mul_comm _ mc), !Z.div_mul by lia. reflexivity. }
    exists 53, m2. rewrite Heq. repeat split; try lia.
    replace (E + 1 + (Zdigits2 c - 53) + 52)
      with (E + (Zdigits2 c - 53) + 53) by lia.
    reflexivity.
Qed.

(** The integer arithmetic behind the percentage: a quotient cut to [A]
    binary places, times 100 cut again, then rounded to tenths, is a
    nearest number of tenths of the exact percentage. *)
Lemma tenths_of_cut (s t A B Q m1 m2 : Z) :
  0 < s <= t -> t < 2 ^ 32 ->
  2 ^ 52 <= A -> B = 2 ^ 52 \/ B = 2 ^ 53 -> 0 < Q ->
  A * 2 ^ 46 = Q * B ->
  m1 = s * A / t \/ m1 = s * A / t + 1 ->
  m2 = m1 * (100 * 2 ^ 46) / B \/ m2 = m1 * (100 * 2 ^ 46) / B + 1 ->
  2 * Z.abs ((20 * m2 + Q) / (2 * Q) * t - 1000 * s) <= t.
Proof.
  intros Hs Ht HA HB HQ HAQ Hm1 Hm2.
  pose proof (Z.div_mod (s * A) t ltac:(lia)) as H1.
  pose proof (Z.mod_pos_bound (s * A) t ltac:(lia)) as H1b.
  assert (0 < B) as HBp by (destruct HB; subst B; lia).
  pose proof (Z.div_mod (m1 * (100 * 2 ^ 46)) B ltac:(lia)) as H2.
  pose proof (Z.mod_pos_bound (m1 * (100 * 2 ^ 46)) B ltac:(lia)) as H2b.
  pose proof (Z.div_mod (20 * m2 + Q) (2 * Q) ltac:(lia)) as H3.
  pose proof (Z.mod_pos_bound (20 * m2 + Q) (2 * Q) ltac:(lia)) as H3b.
  set (N := (20 * m2 + Q) / (2 * Q)) in *.
  set (r3 := (20 * m2 + Q) mod (2 * Q)) in *.
  set (f1 := s * A / t) in *. set (r1 := (s * A) mod t) in *.
  set (f2 := m1 * (100 * 2 ^ 46) / B) in *.
  set (r2 := (m1 * (100 * 2 ^ 46)) mod B) in *.
  (* the first cut is off by at most [t] *)
  assert (- t <= t * m1 - s * A <= t) as HY by (destruct Hm1; subst m1; nia).
  (* the second by at most [B] *)
  assert (- B <= B * m2 - m1 * (100 * 2 ^ 46) <= B) as HD
    by (destruct Hm2; subst m2; nia).
  set (Y := t * m1 - s * A) in *.
  set (D := B * m2 - m1 * (100 * 2 ^ 46)) in *.
  set (X := 10 * t * m2 - 1000 * s * Q).
  assert (B * X = 1000 * 2 ^ 46 * Y + 10 * t * D) as HX.
  { unfold X, Y, D.
    replace (B * (10 * t * m2 - 1000 * s * Q))
      with (10 * t * (B * m2) - 1000 * s * (Q * B)) by ring.
    rewrite <- HAQ. ring. }
  assert (- (A * 2 ^ 46) < 2 * (B * X) < A * 2 ^ 46) as HBX.
  { rewrite HX.
    assert (- (t * 2 ^ 53) <= t * D <= t * 2 ^ 53) as HtD.
    { destruct HB; subst B; change (2 ^ 53) with (2 * 2 ^ 52); nia. }
    assert (2 ^ 52 * 2 ^ 46 <= A * 2 ^ 46) by nia.
    change (2 ^ 46) with 70368744177664 in *.
    change (2 ^ 53) with 9007199254740992 in *.
    change (2 ^ 52) with 4503599627370496 in *.
    change (2 ^ 32) with 4294967296 in *. lia. }
  assert (- Q < 2 * X < Q) as HXQ.
  { rewrite HAQ in HBX. split; nia. }
  unfold X in HXQ. clearbody N r3.
  assert (2 * Q * (N * t - 1000 * s)
          = 2 * (10 * t * m2 - 1000 * s * Q) + Q * t - r3 * t) as HW
    by nia.
  set (W := N * t - 1000 * s) in *.
  assert (2 * W <= t) by nia.
  assert (- t <= 2 * W) by nia.
  lia.
Qed.

(** The digits that [toFixed(1)] writes for [n] tenths, up to 100.0. *)
Lemma toFixed1_digits_upto_1000 :
  forallb (fun k =>
    let n := Z.of_nat k in
    let ds := JsString.digits n in
    let ds := if (length ds <=? 1)%nat
              then repeat 48%N (2 - length ds) ++ ds else ds in
    JsString.eqb (take (length ds - 1) ds ++ lit "." ++ drop (length ds - 1) ds)
      (one_decimal n)) (seq 0 1001) = true.
Proof. vm_compute. reflexivity. Qed.

(** [toFixed(1)] of a positive Number with 53 significant bits and
    exponent [- K]. *)
Lemma toFixed1_fin (m K : Z) :
  2 ^ 52 <= m <= 2 ^ 53 -> 2 <= K ->
  0 <= (20 * m + 2 ^ K) / (2 * 2 ^ K) <= 1000 ->
  Number.toFixed1 (normal53 m (- K)) = one_decimal ((20 * m + 2 ^ K) / (2 * 2 ^ K)).
Proof.
  intros Hm HK Hn.
  assert (0 < 2 ^ K) as HpK by (apply Z.pow_pos_nonneg; lia).
  assert (forall n, 0 <= n <= 1000 ->
            (let ds := JsString.digits n in
             let ds := if (length ds <=? 1)%nat
                       then repeat 48%N (2 - length ds) ++ ds else ds in
             [] ++ take (length ds - 1) ds ++ lit "."
               ++ drop (length ds - 1) ds) = one_decimal n) as Hfmt.
  { intros n Hn'. pose proof toFixed1_digits_upto_1000 as Hall.
    rewrite forallb_forall in Hall.
    specialize (Hall (Z.to_nat n)).
    rewrite Z2Nat.id in Hall by lia.
    assert (In (Z.to_nat n) (seq 0 1001)) as Hin by (apply in_seq; lia).
    apply Hall in Hin. unfold JsString.eqb in Hin.
    apply bool_decide_eq_true in Hin. exact Hin. }
  unfold normal53, Number.toFixed1.
  destruct (m <? 2 ^ 53) eqn:Hlt.
  - apply Z.ltb_lt in Hlt.
    destruct (0 <=? - K) eqn:H0; [apply Z.leb_le in H0; lia|].
    rewrite Z.opp_involutive, Z2Pos.id by lia.
    destruct (2 ^ K * 10 ^ 21 <=? m) eqn:Hg.
    { apply Z.leb_le in Hg.
      assert (2 ^ 53 < 10 ^ 21) by reflexivity. nia. }
    apply Hfmt. exact Hn.
  - apply Z.ltb_ge in Hlt. assert (m = 2 ^ 53) as -> by lia.
    destruct (0 <=? - K + 1) eqn:H0; [apply Z.leb_le in H0; lia|].
    rewrite Z2Pos.id by lia.
    replace (- (- K + 1)) with (K - 1) by lia.
    assert (0 < 2 ^ (K - 1)) as HpK1 by (apply Z.pow_pos_nonneg; lia).
    destruct (2 ^ (K - 1) * 10 ^ 21 <=? 2 ^ 52) eqn:Hg.
    { apply Z.leb_le in Hg.
      assert (2 ^ 52 < 10 ^ 21) by reflexivity. nia. }
    assert ((20 * 2 ^ 52 + 2 ^ (K - 1)) / (2 * 2 ^ (K - 1))
            = (20 * 2 ^ 53 + 2 ^ K) / (2 * 2 ^ K)) as ->.
    { rewrite (pow2_pred K) by lia.
      replace (20 * 2 ^ 53 + 2 * 2 ^ (K - 1))
        with (2 * (20 * 2 ^ 52 + 2 ^ (K - 1)))
        by (change (2 ^ 53) with (2 * 2 ^ 52); ring).
      rewrite Z.div_mul_cancel_l by lia. reflexivity. }
    apply Hfmt. exact Hn.
Qed.

(** The percentage text of the code is a nearest number of tenths of
    [score / total * 100], written with one decimal. *)
Lemma percent_text_nearest (score total : nat) :
  (score <= total)%nat -> (0 < total)%nat -> Z.of_nat total < 2 ^ 32 ->
  exists tenths,
    nearest_tenths (Z.of_nat score) (Z.of_nat total) tenths = true
    /\ percent_text score total = one_decimal tenths.
Proof.
  intros Hst Ht Hr. unfold percent_text, Number_of_nat, nearest_tenths.
  set (s := Z.of_nat score). set (t := Z.of_nat total).
  assert (0 <= s <= t) as Hs by lia. assert (0 < t) as Htp by lia.
  fold t in Hr. clearbody s t. clear Hst Ht.
  assert (t < 2 ^ 53) as Ht53 by (change (2 ^ 32) with 4294967296 in Hr;
                                  change (2 ^ 53) with 9007199254740992; lia).
  destruct (Z.eq_dec s 0) as [->|Hs0].
  { exists 0. split; [apply Z.leb_le; lia|].
    rewrite ofZ_0, (ofZ_exact t) by lia. reflexivity. }
  destruct (div_ofZ s t) as (n & m1 & Hn01 & Hb & Hm1 & ->); [lia | lia |].
  pose proof (Zdigits2_mono s t ltac:(lia)) as Hmono.
  pose proof (Zdigits2_lt t 32 ltac:(lia) ltac:(lia)) as HDt.
  pose proof (Zdigits2_range s ltac:(lia)) as HDs.
  set (K1 := 53 + Zdigits2 t - Zdigits2 s - n) in *.
  destruct (mul_fin_ofZ m1 (- K1) 100) as (n2 & m2 & Hn2 & Hb2 & Hm2 & ->);
    [lia | done | lia |].
  change (Zdigits2 100) with 7 in *. change (53 - 7) with 46 in *.
  replace (- K1 + (7 - 53) + n2) with (- (K1 + 46 - n2)) by lia.
  set (K2 := K1 + 46 - n2).
  assert (0 < 2 ^ K2) as HQ by (apply Z.pow_pos_nonneg; lia).
  assert (2 ^ 52 <= 2 ^ K1) as HA by (apply Z.pow_le_mono_r; lia).
  assert (2 ^ K1 * 2 ^ 46 = 2 ^ K2 * 2 ^ n2) as HAQ.
  { rewrite <- !Z.pow_add_r by lia. f_equal. lia. }
  pose proof (tenths_of_cut s t (2 ^ K1) (2 ^ n2) (2 ^ K2) m1 m2
                ltac:(lia) Hr HA
                ltac:(destruct Hn2 as [-> | ->]; [by left | by right])
                HQ HAQ Hm1 Hm2) as Hnear.
  set (N := (20 * m2 + 2 ^ K2) / (2 * 2 ^ K2)) in *.
  assert (0 <= N).
  { apply Z.div_pos; lia. }
  assert (N <= 1000) by nia.
  exists N. split; [apply Z.leb_le; exact Hnear|].
  apply toFixed1_fin; [lia | lia | fold N; lia].
Qed.

(** In every state the page can reach, the score is at most the number of
    questions: the first condition on the percentage below holds in every
    session. *)
Lemma score_at_most_total (evs : list Event) :
  let st := run evs init in
  (score (vars st) <= length (questions (vars st)))%nat.
Proof.
  cbv zeta. pose proof (Inv_run evs init Inv_init) as HI.
  rewrite (inv_score _ HI).
  destruct (inv_answers _ HI) as (qs & HF & Hsub).
  apply sublist_length in Hsub. rewrite length_take in Hsub.
  pose proof (List.filter_length_le Answer.correct
                (breakdown (vars (run evs init)))) as Hle.
  unfold count_correct. rewrite (Forall2_length HF) in Hle. lia.
Qed.

(** C8 (summary): from every state [finishQuiz] completes and shows
    - the elapsed time [Math.round((endTime - startTime) / 1000)]: for
      clock readings [startTime <= now] below [2 ^ 52] this Number is the
      whole second nearest to [now - startTime] milliseconds, half a
      second counting up ([null] counts as 0);
    - the percentage [((score / questions.length) * 100).toFixed(1)]: for a
      score of at most [questions.length], which is positive and below
      [2 ^ 32], this text is a number of tenths nearest to
      [1000 * score / questions.length], written with one decimal;
    - the review of the missed answers, which are the records of
      [breakdown] with [correct] false, all of them and no other, in the
      order of [breakdown].
    The same elapsed time, score and total are posted. *)
Theorem finishQuiz_summary (st : State) (now : Z) :
  exists st' missed,
    finishQuiz now st = (Normal tt, st')
    /\ text (dom st') timeTakenP
       = lit "Time taken: "
           ++ Number.toString (elapsed_seconds now (startTime (vars st)))
           ++ lit " seconds."
    /\ (0 <= default 0 (startTime (vars st)) <= now -> now < 2 ^ 52 ->
        elapsed_seconds now (startTime (vars st))
        = Number.ofZ (nearest_second (now - default 0 (startTime (vars st)))))
    /\ text (dom st') finalScoreP
       = username (vars st) ++ lit ", your final score: "
           ++ show_nat (score (vars st)) ++ lit "/"
           ++ show_nat (length (questions (vars st))) ++ lit " ("
           ++ percent_text (score (vars st)) (length (questions (vars st)))
           ++ lit "%)"
    /\ ((score (vars st) <= length (questions (vars st)))%nat ->
        (0 < length (questions (vars st)))%nat ->
        Z.of_nat (length (questions (vars st))) < 2 ^ 32 ->
        exists tenths,
          nearest_tenths (Z.of_nat (score (vars st)))
            (Z.of_nat (length (questions (vars st)))) tenths = true
          /\ percent_text (score (vars st)) (length (questions (vars st)))
             = one_decimal tenths)
    /\ text (dom st') areasDiv = review_html missed
    /\ missed `sublist_of` breakdown (vars st)
    /\ Forall (fun r => Answer.correct r = false) missed
    /\ (length missed + count_correct (breakdown (vars st))
        = length (breakdown (vars st)))%nat
    /\ posts (env st')
       = posts (env st) ++
           [ {| ScorePost.username := username (vars st);
                ScorePost.correct := score (vars st);
                ScorePost.total := length (questions (vars st));
                ScorePost.timeTaken :=
                  elapsed_seconds now (startTime (vars st));
                ScorePost.breakdown := breakdown (vars st) |} ].
Proof.
  destruct (finishQuiz_effect now st)
    as (st' & Hrun & _ & _ & _ & _ & _ & Hfinal & Htime & Hareas & Hposts & _).
  exists st', (List.filter (fun r => negb (Answer.correct r))
                 (breakdown (vars st))).
  split; [done|]. split; [done|].
  split; [apply elapsed_seconds_nearest|].
  split; [done|]. split; [apply percent_text_nearest|].
  split; [done|].
  split; [apply missed_sublist|].
  split; [apply missed_incorrect|].
  split; [apply missed_complement|done].
Qed.

(** On Ann's sample session, finished 4499 ms after its start with both
    answers right, the two conditions hold: the elapsed time is that of
    4499 ms and the percentage that of 2 out of 2. *)
Lemma finishQuiz_summary_witness :
  elapsed_seconds 5499 (startTime (vars Sample.answered_last))
  = Number.ofZ (nearest_second (5499 - 1000))
  /\ exists tenths,
       nearest_tenths 2 2 tenths = true
       /\ percent_text (score (vars Sample.answered_last))
            (length (questions (vars Sample.answered_last)))
          = one_decimal tenths.
Proof.
  destruct (finishQuiz_summary Sample.answered_last 5499)
    as (_ & _ & _ & _ & Hel & _ & Hpc & _).
  split.
  - apply Hel; vm_compute; [split; discriminate | reflexivity].
  - apply Hpc; vm_compute; [lia | lia | reflexivity].
Defined.

(** *** The round trips of the spec, and the arithmetic of the summary *)

(** Answering (a, b) on the sample quiz: score 2, nothing missed, 100.0. *)
Example round_trip_all_correct :
  let st := run [NextClick 2000; OptionClick 1%nat; NextClick 5499]
              Sample.answered in
  score (vars st) = 2%nat
  /\ List.filter (fun r => negb (Answer.correct r)) (breakdown (vars st)) = []
  /\ text (dom st) finalScoreP = lit "Ann, your final score: 2/2 (100.0%)"
  /\ text (dom st) timeTakenP = lit "Time taken: 4 seconds."
  /\ phase st = Finished.
Proof. cbv zeta. repeat split; vm_compute; reflexivity. Qed.

(** Answering (b, a): score 0, both questions missed, in their order, 0.0. *)
Example round_trip_all_wrong :
  let st := run [OptionClick 1%nat; NextClick 2000; OptionClick 0%nat;
                 NextClick 5500] Sample.started in
  score (vars st) = 0%nat
  /\ List.filter (fun r => negb (Answer.correct r)) (breakdown (vars st))
     = [record_of Sample.q1 (lit "b"); record_of Sample.q2 (lit "a")]
  /\ text (dom st) finalScoreP = lit "Ann, your final score: 0/2 (0.0%)"
  /\ text (dom st) timeTakenP = lit "Time taken: 5 seconds."
  /\ phase st = Finished.
Proof. cbv zeta. repeat split; vm_compute; reflexivity. Qed.

(** With no question the percentage reads [NaN]. *)
Example percent_text_no_question : percent_text 0 0 = lit "NaN".
Proof. vm_compute. reflexivity. Qed.

Example percent_text_third : percent_text 1 3 = lit "33.3".
Proof. vm_compute. reflexivity. Qed.

(** 23 of 80 is 28.75 percent; the binary64 product is just below, and
    [toFixed(1)] writes 28.7. *)
Example percent_text_below_tie : percent_text 23 80 = lit "28.7".
Proof. vm_compute. reflexivity. Qed.

(** For every quiz of up to 60 questions the percentage shown is a one
    decimal number nearest to the exact percentage. *)
Example percent_text_nearest_upto_60 :
  forallb (fun total =>
    forallb (fun score =>
      let s := Z.of_nat score in
      let t := Z.of_nat total in
      existsb (fun tenths =>
        nearest_tenths s t tenths
        && JsString.eqb (percent_text score total) (one_decimal tenths))
        [1000 * s / t; 1000 * s / t + 1])
      (seq 0 (total + 1)))
    (seq 1 60) = true.
Proof. vm_compute. reflexivity. Qed.

(** For every duration of up to three seconds, measured from the epoch or
    from a present-day clock value, the elapsed time shown is the nearest
    whole second. *)
Example elapsed_seconds_nearest_upto_3000 :
  forallb (fun d =>
    let ms := Z.of_nat d in
    SFeqb (elapsed_seconds ms (Some 0)) (Number.ofZ (nearest_second ms))
    && SFeqb (elapsed_seconds (1700000000000 + ms) (Some 1700000000000))
         (Number.ofZ (nearest_second ms)))
    (seq 0 3001) = true.
Proof. vm_compute. reflexivity. Qed.

Example toString_samples :
  Number.toString (Number.ofZ 100) = lit "100"
  /\ Number.toString (Number.of_ratio 1 3) = lit "0.3333333333333333"
  /\ Number.toString (Number.ofZ (10 ^ 21)) = lit "1e+21"
  /\ Number.toString (Number.of_ratio 15 100000000) = lit "1.5e-7"
  /\ Number.toString (Number.Math_round (Number.of_ratio 5 2)) = lit "3"
  /\ Number.toFixed1 (Number.of_ratio 1 4) = lit "0.3"
  /\ Number.toFixed1 (Number.of_ratio 7 20) = lit "0.3".
Proof. repeat split; vm_compute; reflexivity. Qed.

Example trim_samples :
  JsString.trim (lit "  Ann Lee ") = lit "Ann Lee"
  /\ JsString.trim [0x3000%N; 9%N; 0xFEFF%N] = [].
Proof. split; vm_compute; reflexivity. Qed.

(** ** Further properties of the script *)

(** *** How one event changes the variables and the outside world *)

Lemma run_invariant (P : State -> Prop) :
  (forall ev st, P st -> P (step ev st)) ->
  forall evs st, P st -> P (run evs st).
Proof.
  intros Hstep evs. induction evs as [|ev evs IH]; intros st HP; [done|].
  cbn. apply IH, Hstep, HP.
Qed.

Lemma start_click_blank (value : jsstring) (st : State) :
  JsString.trim value = [] ->
  step (StartClick value) st
  = with_dom (put_text introError (lit "Please enter your name to start."))
      (with_vars (put_username []) st).
Proof.
  intros Ht. cbn [step].
  unfold dispatch, start_click, bind, set_var, modify, get.
  rewrite Ht. reflexivity.
Qed.

(** No exception leaves [loadQuestions]. *)
Lemma loadQuestions_cases (o : FetchOutcome) (now : Z) (st : State) :
  exists st',
    loadQuestions o now st = (Normal tt, st')
    /\ console (env st') = console (env st)
    /\ posts (env st') = posts (env st)
    /\ posting (env st') = posting (env st)
    /\ fetching (env st') = fetching (env st)
    /\ ((failed o = true
         /\ vars st' = vars st /\ dom st' = dom st
         /\ alerts (env st')
            = alerts (env st)
                ++ [lit "Error loading questions: " ++ failure_message o])
        \/ (exists data,
              o = Response data /\ failed o = false
              /\ vars st'
                 = fresh_vars (data_questions data) now (username (vars st))
              /\ hidden (dom st')
                 = <[quizScreen := false]>
                     (<[introScreen := true]> (hidden (dom st)))
              /\ match data_questions data !! 0%nat with
                 | Some q =>
                     alerts (env st') = alerts (env st)
                     /\ optionsContainer (dom st')
                        = List.map option_button (Question.options q)
                 | None =>
                     alerts (env st')
                     = alerts (env st)
                         ++ [lit "Error loading questions: "
                               ++ JsError.message
                                    (JsError.undefined_read "question")]
                     /\ optionsContainer (dom st')
                        = optionsContainer (dom st)
                 end)).
Proof.
  destruct (failed o) eqn:Hf.
  - rewrite loadQuestions_failed by done. eexists. split; [reflexivity|].
    destruct st as [g d w]. cbn. repeat split. left. by repeat split.
  - destruct o as [e|e|data]; try done.
    destruct (data_questions data !! 0%nat) as [q|] eqn:Hq.
    + destruct (loadQuestions_ok_some data now st q Hf Hq)
        as (st' & Hrun & Hv & He & Hh & Hb).
      exists st'. rewrite He. repeat split; try done.
      right. exists data. rewrite Hq. by repeat split.
    + destruct (loadQuestions_ok_none data now st Hf Hq)
        as (st' & Hrun & Hv & Ha & Hc & Hfe & Hp & Hpg & Hh & Hb).
      exists st'. repeat split; try done.
      right. exists data. rewrite Hq. by repeat split.
Qed.

(** The variables after one event. *)
Lemma step_vars (ev : Event) (st : State) :
  let g := vars st in
  let g' := vars (step ev st) in
  match ev with
  | StartClick value => g' = put_username (JsString.trim value) g
  | QuestionsSettled o now =>
      g' = g
      \/ exists data,
           o = Response data
           /\ g' = fresh_vars (data_questions data) now (username g)
  | OptionClick i =>
      g' = g
      \/ exists btn q,
           optionsContainer (dom st) !! i = Some btn
           /\ Button.disabled btn = false
           /\ questions g !! currentIndex g = Some q
           /\ g' = put_score
                     (score g
                      + if JsString.eqb (Button.onclick btn)
                             (Question.correct_label q) then 1 else 0)%nat
                     (put_breakdown
                        (breakdown g ++ [record_of q (Button.onclick btn)]) g)
  | NextClick now =>
      ((currentIndex g + 1 < length (questions g))%nat
       /\ g' = put_currentIndex (currentIndex g + 1) g)
      \/ ((length (questions g) <= currentIndex g + 1)%nat /\ g' = g)
  | ScoreSettled failure => g' = g
  end.
Proof.
  cbv zeta. destruct ev as [value|o now|i|now|failure].
  - destruct (JsString.trim value) as [|c name] eqn:Ht.
    + by rewrite start_click_blank.
    + rewrite start_click_named by (by rewrite Ht). by rewrite Ht.
  - cbn [step]. destruct (fetching (env st)) as [|n]; [by left|].
    destruct (loadQuestions_cases o now (with_env (put_fetching n) st))
      as (st' & Hrun & _ & _ & _ & _ & [(_ & Hv & _)|(data & -> & _ & Hv & _)]);
      unfold dispatch; rewrite Hrun, Hv; [by left|right; by exists data].
  - cbn [step].
    destruct (optionsContainer (dom st) !! i) as [btn|] eqn:Hb; [|by left].
    destruct (Button.disabled btn) eqn:Hd; [by left|].
    destruct (questions (vars st) !! currentIndex (vars st)) as [q|] eqn:Hq.
    + destruct (handleAnswer_some st q i (Button.onclick btn) Hq)
        as (st' & Hrun & Hv & _).
      unfold dispatch. rewrite Hrun, Hv. right. by exists btn, q.
    + unfold dispatch. rewrite handleAnswer_none by done. by left.
  - destruct (decide (currentIndex (vars st) + 1
                      < length (questions (vars st)))%nat) as [Hmore|Hlast].
    + destruct (next_click_more now st Hmore) as (q & _ & Hv & _).
      left. by rewrite Hv.
    + right. rewrite next_click_last by lia.
      destruct (finishQuiz_effect now st) as (st' & -> & Hv & _).
      split; [lia|done].
  - cbn [step]. destruct (posting (env st)); [done|]. by destruct failure.
Qed.

Lemma uncaught_app (c1 c2 : list ConsoleEntry) :
  uncaught (c1 ++ c2) = uncaught c1 ++ uncaught c2.
Proof. unfold uncaught. by rewrite flat_map_app. Qed.

(** The score posts after one event: only Next on the last question (or
    with no question) adds one. *)
Lemma step_posts (ev : Event) (st : State) :
  posts (env (step ev st)) = posts (env st)
  \/ exists now,
       ev = NextClick now
       /\ (length (questions (vars st)) <= currentIndex (vars st) + 1)%nat
       /\ posts (env (step ev st))
          = posts (env st) ++
              [ {| ScorePost.username := username (vars st);
                   ScorePost.correct := score (vars st);
                   ScorePost.total := length (questions (vars st));
                   ScorePost.timeTaken :=
                     elapsed_seconds now (startTime (vars st));
                   ScorePost.breakdown := breakdown (vars st) |} ].
Proof.
  destruct ev as [value|o now|i|now|failure].
  - left. destruct (JsString.trim value) as [|c name] eqn:Ht.
    + by rewrite start_click_blank.
    + by rewrite start_click_named by (by rewrite Ht).
  - left. cbn [step]. destruct (fetching (env st)) as [|n]; [done|].
    destruct (loadQuestions_cases o now (with_env (put_fetching n) st))
      as (st' & Hrun & _ & Hp & _).
    unfold dispatch. by rewrite Hrun, Hp.
  - left. cbn [step].
    destruct (optionsContainer (dom st) !! i) as [btn|]; [|done].
    destruct (Button.disabled btn); [done|].
    destruct (questions (vars st) !! currentIndex (vars st)) as [q|] eqn:Hq.
    + destruct (handleAnswer_some st q i (Button.onclick btn) Hq)
        as (st' & Hrun & _ & He & _).
      unfold dispatch. by rewrite Hrun, He.
    + unfold dispatch. by rewrite handleAnswer_none.
  - destruct (decide (currentIndex (vars st) + 1
                      < length (questions (vars st)))%nat) as [Hmore|Hlast].
    + left. destruct (next_click_more now st Hmore) as (q & _ & _ & He & _).
      by rewrite He.
    + right. exists now. rewrite next_click_last by lia.
      destruct (finishQuiz_effect now st)
        as (st' & -> & _ & _ & _ & _ & _ & _ & _ & _ & Hp & _).
      split; [done|]. split; [lia|done].
  - left. cbn [step]. destruct (posting (env st)); [done|]. by destruct failure.
Qed.

(** The alerts after one event: only a settled load raises one. *)
Lemma step_alerts (ev : Event) (st : State) :
  alerts (env (step ev st)) = alerts (env st)
  \/ exists o now msg,
       ev = QuestionsSettled o now
       /\ alerts (env (step ev st)) = alerts (env st) ++ [msg].
Proof.
  destruct ev as [value|o now|i|now|failure].
  - left. destruct (JsString.trim value) as [|c name] eqn:Ht.
    + by rewrite start_click_blank.
    + by rewrite start_click_named by (by rewrite Ht).
  - cbn [step]. destruct (fetching (env st)) as [|n]; [by left|].
    destruct (loadQuestions_cases o now (with_env (put_fetching n) st))
      as (st' & Hrun & _ & _ & _ & _
          & [(_ & _ & _ & Ha)|(data & -> & _ & _ & _ & Ha)]);
      unfold dispatch; rewrite Hrun.
    + right. by eexists _, _, _.
    + destruct (data_questions data !! 0%nat); destruct Ha as [Ha _].
      * by left.
      * right. by eexists _, _, _.
  - left. cbn [step].
    destruct (optionsContainer (dom st) !! i) as [btn|]; [|done].
    destruct (Button.disabled btn); [done|].
    destruct (questions (vars st) !! currentIndex (vars st)) as [q|] eqn:Hq.
    + destruct (handleAnswer_some st q i (Button.onclick btn) Hq)
        as (st' & Hrun & _ & He & _).
      unfold dispatch. by rewrite Hrun, He.
    + unfold dispatch. by rewrite handleAnswer_none.
  - left.
    destruct (decide (currentIndex (vars st) + 1
                      < length (questions (vars st)))%nat) as [Hmore|Hlast].
    + destruct (next_click_more now st Hmore) as (q & _ & _ & He & _).
      by rewrite He.
    + rewrite next_click_last by lia.
      by destruct (finishQuiz_effect now st)
        as (st' & -> & _ & _ & _ & _ & _ & _ & _ & _ & _ & _ & Ha & _).
  - left. cbn [step]. destruct (posting (env st)); [done|]. by destruct failure.
Qed.

(** The exceptions that left a handler, after one event: only an option
    click with no current question adds one. *)
Lemma step_uncaught (ev : Event) (st : State) :
  uncaught (console (env (step ev st))) = uncaught (console (env st))
  \/ exists i,
       ev = OptionClick i
       /\ questions (vars st) !! currentIndex (vars st) = None
       /\ uncaught (console (env (step ev st)))
          = uncaught (console (env st))
              ++ [JsError.undefined_read "correct_label"].
Proof.
  destruct ev as [value|o now|i|now|failure].
  - left. destruct (JsString.trim value) as [|c name] eqn:Ht.
    + by rewrite start_click_blank.
    + by rewrite start_click_named by (by rewrite Ht).
  - left. cbn [step]. destruct (fetching (env st)) as [|n]; [done|].
    destruct (loadQuestions_cases o now (with_env (put_fetching n) st))
      as (st' & Hrun & Hc & _).
    unfold dispatch. by rewrite Hrun, Hc.
  - cbn [step].
    destruct (optionsContainer (dom st) !! i) as [btn|]; [|by left].
    destruct (Button.disabled btn); [by left|].
    destruct (questions (vars st) !! currentIndex (vars st)) as [q|] eqn:Hq.
    + left. destruct (handleAnswer_some st q i (Button.onclick btn) Hq)
        as (st' & Hrun & _ & He & _).
      unfold dispatch. by rewrite Hrun, He.
    + right. exists i. unfold dispatch. rewrite handleAnswer_none by done.
      cbn. by rewrite uncaught_app.
  - left.
    destruct (decide (currentIndex (vars st) + 1
                      < length (questions (vars st)))%nat) as [Hmore|Hlast].
    + destruct (next_click_more now st Hmore) as (q & _ & _ & He & _).
      by rewrite He.
    + rewrite next_click_last by lia.
      destruct (finishQuiz_effect now st)
        as (st' & -> & _ & _ & _ & _ & _ & _ & _ & _ & _ & _ & _ & Hc).
      cbn. by rewrite Hc.
  - left. cbn [step]. destruct (posting (env st)); [done|].
    destruct failure; [|done]. cbn. rewrite uncaught_app. cbn.
    by rewrite app_nil_r.
Qed.

(** *** The current index *)

Lemma index_in_range (evs : list Event) :
  let st := run evs init in
  (questions (vars st) = [] /\ currentIndex (vars st) = 0%nat)
  \/ (currentIndex (vars st) < length (questions (vars st)))%nat.
Proof.
  cbv zeta. apply run_invariant; [|by left].
  intros ev st HP. pose proof (step_vars ev st) as Hv. cbv zeta in Hv.
  destruct ev as [value|o now|i|now|failure].
  - by rewrite Hv.
  - destruct Hv as [->|(data & _ & ->)]; [done|]. cbn.
    destruct (data_questions data); [by left|right; cbn; lia].
  - destruct Hv as [->|(btn & q & _ & _ & _ & ->)]; done.
  - destruct Hv as [[Hmore ->]|[_ ->]]; [by right|done].
  - by rewrite Hv.
Qed.

(** X1 (the index stays in range): in every state the page can reach,
    [currentIndex] is a position of [questions], so that the current
    question exists, or there is no question at all and the index is 0. *)
Theorem current_question_exists (evs : list Event) :
  let st := run evs init in
  (questions (vars st) = [] /\ currentIndex (vars st) = 0%nat)
  \/ ((currentIndex (vars st) < length (questions (vars st)))%nat
      /\ exists q, questions (vars st) !! currentIndex (vars st) = Some q).
Proof.
  cbv zeta. destruct (index_in_range evs) as [H|H]; [by left|right].
  split; [done|]. by apply lookup_lt_is_Some_2.
Qed.

(** X2 (no exception with questions): when every response the page has
    received is well formed, that is [questions] is an array of complete
    question objects as [ApiData] has them, then in a reachable state with
    at least one question no event makes a handler throw: the list of
    exceptions reported on the console stays as it is.  A response without
    [questions], or with a question without [options], is outside this
    statement. *)
Theorem no_exception_with_questions (evs : list Event) (ev : Event) :
  let st := run evs init in
  questions (vars st) <> [] ->
  uncaught (console (env (step ev st))) = uncaught (console (env st)).
Proof.
  cbv zeta. intros Hne.
  destruct (step_uncaught ev (run evs init)) as [H|(i & _ & Hnone & _)];
    [done|].
  destruct (index_in_range evs) as [[H _]|H]; [done|].
  apply lookup_ge_None in Hnone. lia.
Qed.

Lemma no_exception_with_questions_witness :
  uncaught (console (env (step (OptionClick 1%nat) Sample.started)))
  = uncaught (console (env Sample.started)).
Proof.
  apply (no_exception_with_questions
           [StartClick (lit " Ann ");
            QuestionsSettled (ok_response Sample.quiz) 1000]
           (OptionClick 1%nat)).
  discriminate.
Defined.

(** X3 (the only exception): when every response the page has received
    is well formed, that is [questions] is an array of complete question
    objects as [ApiData] has them, every exception that ever left a handler
    is the [TypeError] of [handleAnswer] reading [correct_label] of a
    missing question.  A response without [questions], or with a question
    without [options], is outside this statement. *)
Theorem only_exception_is_missing_question (evs : list Event) :
  Forall (fun e => e = JsError.undefined_read "correct_label")
    (uncaught (console (env (run evs init)))).
Proof.
  apply (run_invariant (fun st =>
    Forall (fun e => e = JsError.undefined_read "correct_label")
      (uncaught (console (env st))))); [|by constructor].
  intros ev st HP.
  destruct (step_uncaught ev st) as [->|(i & _ & _ & ->)]; [done|].
  apply Forall_app. split; [done|]. by repeat constructor.
Qed.

(** *** The name *)

Lemma trim_start_blank (s : jsstring) :
  JsString.trim_start s = [] <-> blank s = true.
Proof.
  unfold blank. induction s as [|c s IH]; [done|]. cbn.
  destruct (JsString.is_white_space c); [done|]. cbn. split; done.
Qed.

Lemma trim_start_head (s : jsstring) :
  from_option JsString.is_white_space false (head (JsString.trim_start s))
  = false.
Proof.
  induction s as [|c s IH]; [done|]. cbn.
  by destruct (JsString.is_white_space c) eqn:Hc; cbn.
Qed.

Lemma trim_start_suffix (s : jsstring) :
  exists p, s = p ++ JsString.trim_start s.
Proof.
  induction s as [|c s [p IH]]; [by exists []|]. cbn.
  destruct (JsString.is_white_space c); [|by exists []].
  exists (c :: p). cbn. by rewrite <- IH.
Qed.

Lemma blank_rev (s : jsstring) : blank (rev s) = blank s.
Proof.
  unfold blank. induction s as [|c s IH]; [done|]. cbn.
  rewrite forallb_app, IH. cbn. rewrite andb_true_r. apply andb_comm.
Qed.

Lemma blank_trim_start (s : jsstring) :
  blank (JsString.trim_start s) = blank s.
Proof.
  unfold blank. induction s as [|c s IH]; [done|]. cbn.
  destruct (JsString.is_white_space c) eqn:Hc; [done|]. cbn. by rewrite Hc.
Qed.

Lemma trim_blank (s : jsstring) : JsString.trim s = [] <-> blank s = true.
Proof.
  unfold JsString.trim.
  rewrite <- (blank_trim_start s), <- (blank_rev (JsString.trim_start s)).
  rewrite <- trim_start_blank.
  split; [|by intros ->].
  intros H. apply (f_equal (@rev N)) in H. by rewrite rev_involutive in H.
Qed.

Lemma trim_ends (s : jsstring) :
  from_option JsString.is_white_space false (head (JsString.trim s)) = false
  /\ from_option JsString.is_white_space false
       (head (rev (JsString.trim s))) = false.
Proof.
  unfold JsString.trim. split.
  - destruct (trim_start_suffix (rev (JsString.trim_start s))) as [p Hp].
    destruct (JsString.trim_start (rev (JsString.trim_start s)))
      as [|c t] eqn:Ht; [done|].
    apply (f_equal (@rev N)) in Hp.
    rewrite rev_involutive, rev_app_distr in Hp.
    pose proof (trim_start_head s) as Hh. rewrite Hp in Hh.
    destruct (rev (c :: t)) as [|c' t'] eqn:Hr; [|done].
    apply (f_equal (@length N)) in Hr. rewrite length_rev in Hr. done.
  - rewrite rev_involutive. apply trim_start_head.
Qed.

(** X4 (the name check): the start handler stores the trimmed input, whose
    first and last characters are no white space.  It issues a request exactly
    when the input has a character that is not white space and shows the
    validation message exactly when it has none; nothing else of the
    variables changes, and nothing is alerted or posted. *)
Theorem start_click_checks_name (st : State) (value : jsstring) :
  let st' := step (StartClick value) st in
  vars st' = put_username (JsString.trim value) (vars st)
  /\ from_option JsString.is_white_space false (head (username (vars st')))
     = false
  /\ from_option JsString.is_white_space false
       (head (rev (username (vars st')))) = false
  /\ fetching (env st')
     = (fetching (env st) + if blank value then 0 else 1)%nat
  /\ text (dom st') introError
     = (if blank value then lit "Please enter your name to start." else [])
  /\ alerts (env st') = alerts (env st)
  /\ posts (env st') = posts (env st)
  /\ hidden (dom st') = hidden (dom st)
  /\ optionsContainer (dom st') = optionsContainer (dom st).
Proof.
  cbv zeta. pose proof (trim_ends value) as [Hhead Hlast].
  pose proof (trim_blank value) as Hblank.
  destruct (blank value).
  - rewrite start_click_blank by (by apply Hblank).
    rewrite (proj2 Hblank eq_refl) in *.
    destruct st as [g d w]. cbn. rewrite Nat.add_0_r. by repeat split.
  - assert (JsString.trim value <> []) as Hne.
    { intros H. by apply Hblank in H. }
    rewrite start_click_named by done.
    destruct st as [g d w]. cbn. by repeat split.
Qed.

(** *** Showing a question *)

Lemma showQuestion_dom (st : State) (q : Question.t) :
  questions (vars st) !! currentIndex (vars st) = Some q ->
  showQuestion st
  = (Normal tt,
     with_dom (fun d =>
       put_buttons (List.map option_button (Question.options q))
         (put_text questionText (Question.question q)
            (put_text progressP
               (progress_text (currentIndex (vars st))
                  (length (questions (vars st))))
               (put_text explanationP [] (put_text feedback [] d))))) st).
Proof.
  intros Hq. unfold showQuestion, bind at 1, get. cbn beta iota.
  rewrite Hq. cbn -[forEach]. rewrite forEach_append. by destruct st.
Qed.

Lemma showQuestion_none_dom (st : State) :
  questions (vars st) !! currentIndex (vars st) = None ->
  showQuestion st
  = (Throw (JsError.undefined_read "question"),
     with_dom (fun d =>
       put_text progressP
         (progress_text (currentIndex (vars st))
            (length (questions (vars st))))
         (put_text explanationP [] (put_text feedback [] d))) st).
Proof.
  intros Hq. unfold showQuestion, bind at 1, get. cbn beta iota.
  rewrite Hq. by destruct st.
Qed.

(** X5 (a question on display): with a current question, [showQuestion]
    completes and replaces the buttons by one enabled button for each
    option, in the order of the options; each shows [label) text] and its
    click passes the label of its own option.  It writes the question text
    and the progress line, empties the feedback and the explanation, and
    leaves the other texts, the screens, the variables and the outside
    world alone. *)
Theorem showQuestion_renders (st : State) (q : Question.t) :
  questions (vars st) !! currentIndex (vars st) = Some q ->
  let r := showQuestion st in
  let bs := optionsContainer (dom r.2) in
  r.1 = Normal tt
  /\ vars r.2 = vars st /\ env r.2 = env st
  /\ hidden (dom r.2) = hidden (dom st)
  /\ length bs = length (Question.options q)
  /\ List.map Button.onclick bs = option_labels q
  /\ List.map Button.dataset_label bs = option_labels q
  /\ List.map Button.textContent bs
     = List.map (fun o => Opt.label o ++ lit ") " ++ Opt.text o)
         (Question.options q)
  /\ forallb (fun b => negb (Button.disabled b)) bs = true
  /\ text (dom r.2) questionText = Question.question q
  /\ text (dom r.2) progressP
     = progress_text (currentIndex (vars st)) (length (questions (vars st)))
  /\ text (dom r.2) feedback = []
  /\ text (dom r.2) explanationP = []
  /\ text (dom r.2) scoreSpan = text (dom st) scoreSpan
  /\ text (dom r.2) finalScoreP = text (dom st) finalScoreP
  /\ text (dom r.2) timeTakenP = text (dom st) timeTakenP
  /\ text (dom r.2) areasDiv = text (dom st) areasDiv
  /\ text (dom r.2) introError = text (dom st) introError.
Proof.
  intros Hq. cbv zeta. rewrite (showQuestion_dom st q Hq).
  destruct st as [g d w]. cbn. unfold option_labels.
  rewrite !List.map_map, length_map. repeat split; try done.
  induction (Question.options q); by cbn.
Qed.

Lemma showQuestion_renders_witness :
  List.map Button.onclick (optionsContainer (dom (showQuestion Sample.answered).2))
  = [lit "a"; lit "b"].
Proof.
  destruct (showQuestion_renders Sample.answered Sample.q1 eq_refl)
    as (_ & _ & _ & _ & _ & H & _).
  exact H.
Defined.

(** X6 (no question to show): without a current question [showQuestion]
    throws at [q.question].  By then the feedback and the explanation are
    emptied and the progress line is written; the question text and the
    buttons of the question shown before are still in place. *)
Theorem showQuestion_without_question (st : State) :
  questions (vars st) !! currentIndex (vars st) = None ->
  let r := showQuestion st in
  r.1 = Throw (JsError.undefined_read "question")
  /\ vars r.2 = vars st /\ env r.2 = env st
  /\ hidden (dom r.2) = hidden (dom st)
  /\ optionsContainer (dom r.2) = optionsContainer (dom st)
  /\ text (dom r.2) questionText = text (dom st) questionText
  /\ text (dom r.2) progressP
     = progress_text (currentIndex (vars st)) (length (questions (vars st)))
  /\ text (dom r.2) feedback = []
  /\ text (dom r.2) explanationP = [].
Proof.
  intros Hq. cbv zeta. rewrite (showQuestion_none_dom st Hq).
  by destruct st as [g d w].
Qed.

Lemma showQuestion_without_question_witness :
  text (dom (showQuestion init).2) progressP = progress_text 0 0.
Proof.
  destruct (showQuestion_without_question init eq_refl)
    as (_ & _ & _ & _ & _ & _ & H & _).
  exact H.
Defined.

(** *** From the start to the first question, and from a click to the
    feedback *)

Lemma phase_Active (st : State) :
  phase st = Active ->
  fetching (env st) = 0%nat
  /\ hidden (dom st) resultScreen = true
  /\ hidden (dom st) quizScreen = false.
Proof.
  unfold phase. destruct (fetching (env st)); [|done]. cbn.
  destruct (hidden (dom st) resultScreen); [|done].
  by destruct (hidden (dom st) quizScreen).
Qed.

(** X7 (the start): on a page with no load in flight and the result screen
    hidden, a start with a name that is not blank, whose load brings at
    least one question, leaves the session [Active] on the first question:
    fresh variables under the trimmed name, the quiz screen instead of the
    intro screen, the first question's text, "Question 1 of n" and its
    buttons, and no alert. *)
Theorem start_shows_first_question (st : State) (value : jsstring)
    (q : Question.t) (qs : list Question.t) (now : Z) :
  blank value = false ->
  fetching (env st) = 0%nat ->
  hidden (dom st) resultScreen = true ->
  let st' :=
    run [StartClick value; QuestionsSettled (ok_response (q :: qs)) now] st in
  phase st' = Active
  /\ vars st' = fresh_vars (q :: qs) now (JsString.trim value)
  /\ hidden (dom st') introScreen = true
  /\ hidden (dom st') quizScreen = false
  /\ text (dom st') questionText = Question.question q
  /\ text (dom st') progressP = progress_text 0 (S (length qs))
  /\ optionsContainer (dom st')
     = List.map option_button (Question.options q)
  /\ alerts (env st') = alerts (env st)
  /\ posts (env st') = posts (env st).
Proof.
  intros Hblank Hfetch Hres. cbv zeta.
  assert (JsString.trim value <> []) as Hne.
  { intros H. apply trim_blank in H. congruence. }
  cbn -[step]. rewrite start_click_named by done. cbn [step].
  cbn [env with_env with_dom with_vars fetching put_fetching].
  rewrite Hfetch. cbn [Nat.add]. unfold dispatch, ok_response.
  rewrite loadQuestions_ok by done. unfold try_catch.
  cbn [data_questions].
  erewrite showQuestion_dom by reflexivity.
  destruct st as [g d w]. cbn in Hfetch, Hres |- *.
  unfold phase. cbn.
  change (<[quizScreen:=false]> (<[introScreen:=true]> (hidden d))
            resultScreen) with (hidden d resultScreen).
  rewrite Hres, locked_option_buttons. by repeat split.
Qed.

Lemma start_shows_first_question_witness :
  phase Sample.started = Active
  /\ text (dom Sample.started) progressP = progress_text 0 2.
Proof.
  destruct (start_shows_first_question init (lit " Ann ") Sample.q1
              [Sample.q2] 1000 eq_refl eq_refl eq_refl)
    as (H1 & _ & _ & _ & _ & H2 & _).
  exact (conj H1 H2).
Defined.

(** X8 (an answer): in an [Active] state with a current question, a click
    on an option button that is enabled records the answer carrying that
    button's label, counts it when it is right, leaves the outside world
    alone, and the session is [Answered]. *)
Theorem option_click_answers (st : State) (i : nat) (btn : Button.t)
    (q : Question.t) :
  phase st = Active ->
  optionsContainer (dom st) !! i = Some btn ->
  Button.disabled btn = false ->
  questions (vars st) !! currentIndex (vars st) = Some q ->
  let st' := step (OptionClick i) st in
  phase st' = Answered
  /\ breakdown (vars st')
     = breakdown (vars st) ++ [record_of q (Button.onclick btn)]
  /\ score (vars st')
     = (score (vars st)
        + if JsString.eqb (Button.onclick btn) (Question.correct_label q)
          then 1 else 0)%nat
  /\ questions (vars st') = questions (vars st)
  /\ currentIndex (vars st') = currentIndex (vars st)
  /\ env st' = env st.
Proof.
  intros (Hfetch & Hres & Hquiz)%phase_Active Hbtn Hdis Hq. cbv zeta.
  cbn [step]. rewrite Hbtn, Hdis.
  destruct (handleAnswer_some st q i (Button.onclick btn) Hq)
    as (st' & Hrun & Hv & He & Hh & Hlock & Hlen & _).
  unfold dispatch. rewrite Hrun, Hv. repeat split; [|done].
  unfold phase. rewrite He, Hh, Hfetch, Hres, Hquiz. cbn.
  unfold locked. rewrite Hlock.
  destruct (optionsContainer (dom st')) as [|b bs] eqn:Hbs; [|done].
  apply lookup_lt_Some in Hbtn. cbn in Hlen. lia.
Qed.

Lemma option_click_answers_witness :
  phase Sample.answered = Answered
  /\ breakdown (vars Sample.answered) = [record_of Sample.q1 (lit "a")].
Proof.
  destruct (option_click_answers Sample.started 0%nat
              (option_button (Opt.Build_t (lit "a") (lit "first")))
              Sample.q1 eq_refl eq_refl eq_refl eq_refl)
    as (H1 & H2 & _).
  exact (conj H1 H2).
Defined.

Lemma lookup_map {A B} (f : A -> B) (l : list A) (j : nat) :
  List.map f l !! j = f <$> l !! j.
Proof. revert j. induction l as [|a l IH]; intros [|j]; cbn; auto. Qed.

Lemma answered_buttons_right (bs : list Button.t) (i j : nat)
    (cl : jsstring) :
  List.map Button.disable (alter (Button.add_class (lit "correct")) i bs) !! j
  = answered_button (bool_decide (j = i)) true cl <$> bs !! j.
Proof.
  rewrite lookup_map, list_lookup_alter.
  destruct (decide (i = j)) as [->|Hne].
  - rewrite bool_decide_eq_true_2 by done. by destruct (bs !! j).
  - rewrite bool_decide_eq_false_2 by done. by destruct (bs !! j).
Qed.

Lemma answered_buttons_wrong (bs : list Button.t) (i j : nat)
    (cl : jsstring) :
  List.map Button.disable
    (List.map (fun btn =>
       if JsString.eqb (Button.dataset_label btn) cl
       then Button.add_class (lit "show-correct") btn else btn)
       (alter (Button.add_class (lit "incorrect")) i bs)) !! j
  = answered_button (bool_decide (j = i)) false cl <$> bs !! j.
Proof.
  rewrite !lookup_map, list_lookup_alter.
  destruct (decide (i = j)) as [->|Hne].
  - rewrite bool_decide_eq_true_2 by done.
    destruct (bs !! j) as [b|]; [|done]. cbn. f_equal.
    unfold answered_button, classes_after. cbn.
    by destruct (JsString.eqb (Button.dataset_label b) cl).
  - rewrite bool_decide_eq_false_2 by done.
    destruct (bs !! j) as [b|]; [|done]. cbn. f_equal.
    unfold answered_button, classes_after. cbn.
    by destruct (JsString.eqb (Button.dataset_label b) cl).
Qed.

(** X9 (the feedback): after [handleAnswer] on a current question, every
    option button is disabled and keeps its text, label and handler.  The
    clicked button is marked [correct] or [incorrect]; after a wrong answer
    each button whose label is the right one is marked [show-correct], and
    no other class is added.  The feedback line and its colour tell right
    from wrong, the explanation is shown, the score display shows the new
    score, and the question text, the progress line and the screens stay. *)
Theorem handleAnswer_feedback (st : State) (q : Question.t) (i : nat)
    (l : jsstring) (j : nat) :
  questions (vars st) !! currentIndex (vars st) = Some q ->
  let right := JsString.eqb l (Question.correct_label q) in
  let st' := (handleAnswer i l st).2 in
  optionsContainer (dom st') !! j
  = answered_button (bool_decide (j = i)) right (Question.correct_label q)
      <$> optionsContainer (dom st) !! j
  /\ text (dom st') feedback
     = (if right then 10003%N :: lit " Correct!"
        else 10007%N :: lit " Incorrect. The correct answer was '"
               ++ Question.correct_label q ++ lit "'.")
  /\ feedback_color (dom st')
     = (if right then lit "#4CAF50" else lit "#f44336")
  /\ text (dom st') explanationP
     = lit "Explanation: " ++ Question.explanation q
  /\ explanation_display (dom st') = lit "block"
  /\ text (dom st') scoreSpan = show_nat (score (vars st'))
  /\ text (dom st') questionText = text (dom st) questionText
  /\ text (dom st') progressP = text (dom st) progressP
  /\ hidden (dom st') = hidden (dom st).
Proof.
  intros Hq. cbv zeta.
  assert (exists st',
    handleAnswer i l st = (Normal tt, st')
    /\ optionsContainer (dom st')
       = (if JsString.eqb l (Question.correct_label q)
          then List.map Button.disable
                 (alter (Button.add_class (lit "correct")) i
                    (optionsContainer (dom st)))
          else List.map Button.disable
                 (List.map (fun btn =>
                    if JsString.eqb (Button.dataset_label btn)
                         (Question.correct_label q)
                    then Button.add_class (lit "show-correct") btn else btn)
                    (alter (Button.add_class (lit "incorrect")) i
                       (optionsContainer (dom st)))))
    /\ text (dom st') feedback
       = (if JsString.eqb l (Question.correct_label q)
          then 10003%N :: lit " Correct!"
          else 10007%N :: lit " Incorrect. The correct answer was '"
                 ++ Question.correct_label q ++ lit "'.")
    /\ feedback_color (dom st')
       = (if JsString.eqb l (Question.correct_label q)
          then lit "#4CAF50" else lit "#f44336")
    /\ text (dom st') explanationP
       = lit "Explanation: " ++ Question.explanation q
    /\ explanation_display (dom st') = lit "block"
    /\ text (dom st') scoreSpan = show_nat (score (vars st'))
    /\ text (dom st') questionText = text (dom st) questionText
    /\ text (dom st') progressP = text (dom st) progressP
    /\ hidden (dom st') = hidden (dom st))
    as (st' & -> & Hbs & Hrest).
  { unfold handleAnswer, bind at 1, get. cbn beta iota. rewrite Hq.
    destruct st as [g d w]. cbn.
    destruct (JsString.eqb l (Question.correct_label q)); cbn;
      (eexists; split; [reflexivity|]); cbn; by repeat split. }
  cbn [snd]. split; [|exact Hrest]. rewrite Hbs.
  destruct (JsString.eqb l (Question.correct_label q)).
  - apply answered_buttons_right.
  - apply answered_buttons_wrong.
Qed.

Lemma handleAnswer_feedback_witness :
  text (dom (handleAnswer 1 (lit "b") Sample.started).2) feedback
  = 10007%N :: lit " Incorrect. The correct answer was 'a'.".
Proof.
  destruct (handleAnswer_feedback Sample.started Sample.q1 1%nat (lit "b")
              0%nat eq_refl) as (_ & H & _).
  exact H.
Defined.

(** *** A whole session *)

Lemma started_playing (value : jsstring) (qs : list Question.t) (now : Z) :
  blank value = false ->
  qs <> [] ->
  playing qs now (JsString.trim value) 0 []
    (run [StartClick value; QuestionsSettled (ok_response qs) now] init).
Proof.
  intros Hblank Hqs. destruct qs as [|q qs]; [done|].
  assert (JsString.trim value <> []) as Hne.
  { intros H. apply trim_blank in H. congruence. }
  cbn -[step]. rewrite start_click_named by done. cbn [step].
  cbn [env with_env with_dom with_vars fetching put_fetching init].
  cbn [Nat.add]. unfold dispatch, ok_response.
  rewrite loadQuestions_ok by done. unfold try_catch.
  cbn [data_questions].
  erewrite showQuestion_dom by reflexivity.
  unfold playing. cbn. repeat split; try done. by exists q.
Qed.

Lemma playing_option_click qs now name k bd st q (c : nat * Z) :
  playing qs now name k bd st ->
  qs !! k = Some q ->
  is_Some (Question.options q !! c.1) ->
  let st' := step (OptionClick c.1) st in
  vars st' = {| questions := qs; currentIndex := k;
                score := count_correct (bd ++ [chosen q c]);
                startTime := Some now;
                breakdown := bd ++ [chosen q c]; username := name |}
  /\ env st' = env st
  /\ hidden (dom st') = hidden (dom st).
Proof.
  intros (Hv & (q' & Hq' & Hbs) & _) Hq [o Ho]. cbv zeta.
  rewrite Hq in Hq'. injection Hq' as <-.
  cbn [step]. rewrite Hbs, lookup_map, Ho. cbn.
  assert (questions (vars st) !! currentIndex (vars st) = Some q) as Hcur
    by (by rewrite Hv).
  destruct (handleAnswer_some st q c.1 (Opt.label o) Hcur)
    as (st' & Hrun & Hv' & He & Hh & _).
  unfold dispatch. rewrite Hrun, Hv', Hv. cbn.
  unfold chosen. rewrite Ho. cbn. rewrite count_correct_snoc.
  by repeat split.
Qed.

Lemma play_from (qs : list Question.t) (now : Z) (name : jsstring)
    (rest : list Question.t) :
  forall (seen : list Question.t) (cs : list (nat * Z))
         (bd : list Answer.t) (st : State),
    qs = seen ++ rest ->
    rest <> [] ->
    Forall2 (fun q c => is_Some (Question.options q !! c.1)) rest cs ->
    playing qs now name (length seen) bd st ->
    let st' := run (play cs) st in
    phase st' = Finished
    /\ vars st' = {| questions := qs; currentIndex := length qs - 1;
                     score := count_correct (bd ++ zip_with chosen rest cs);
                     startTime := Some now;
                     breakdown := bd ++ zip_with chosen rest cs;
                     username := name |}
    /\ (exists t,
          posts (env st')
          = [ {| ScorePost.username := name;
                 ScorePost.correct
                   := count_correct (bd ++ zip_with chosen rest cs);
                 ScorePost.total := length qs;
                 ScorePost.timeTaken := elapsed_seconds t (Some now);
                 ScorePost.breakdown := bd ++ zip_with chosen rest cs |} ])
    /\ alerts (env st') = []
    /\ uncaught (console (env st')) = [].
Proof.
  induction rest as [|q rest IH]; intros seen cs bd st Hqs Hne HF Hplay;
    [done|].
  destruct cs as [|c cs]; [by apply Forall2_length in HF|].
  apply Forall2_cons_1 in HF as [Hc HF].
  assert (qs !! length seen = Some q) as Hq.
  { rewrite Hqs. by rewrite list_lookup_middle. }
  cbv zeta. change (run (play (c :: cs)) st)
    with (run (play cs) (step (NextClick c.2) (step (OptionClick c.1) st))).
  destruct (playing_option_click qs now name (length seen) bd st q c
              Hplay Hq Hc) as (Hv1 & He1 & Hh1).
  destruct Hplay as (_ & _ & Hfetch & Hres & Hquiz & Hposts & Halerts & Hunc).
  set (st1 := step (OptionClick c.1) st) in *. clearbody st1.
  cbn [zip_with]. rewrite (cons_middle (chosen q c)), app_assoc.
  destruct rest as [|q' rest].
  - apply Forall2_nil_inv_l in HF as ->. cbn [play flat_map run fold_left].
    rewrite app_nil_r.
    assert (length qs = length seen + 1)%nat as Hlen
      by (rewrite Hqs, length_app; cbn; lia).
    rewrite next_click_last by (rewrite Hv1; cbn; lia).
    destruct (finishQuiz_effect c.2 st1)
      as (st2 & -> & Hv2 & _ & _ & _ & Hres2 & _ & _ & _ & Hp2 & Hf2 & Ha2
          & Hc2).
    cbn [snd]. rewrite Hv2, Hp2, Ha2, Hc2, Hv1, He1, Hposts.
    cbn. replace (length qs - 1)%nat with (length seen) by lia.
    repeat split; try done.
    + unfold phase. by rewrite Hf2, He1, Hfetch, Hres2.
    + by exists c.2.
  - assert (currentIndex (vars st1) + 1 < length (questions (vars st1)))%nat
      as Hmore.
    { rewrite Hv1. cbn. rewrite Hqs, length_app. cbn. lia. }
    destruct (next_click_more c.2 st1 Hmore)
      as (q2 & Hq2 & Hv2 & He2 & Hh2 & Hbs2).
    set (st2 := step (NextClick c.2) st1) in *. clearbody st2.
    apply (IH (seen ++ [q])); [by rewrite <- app_assoc|done|done|].
    rewrite Hv1 in Hq2, Hv2. cbn in Hq2, Hv2.
    unfold playing. rewrite Hv2, He2, Hh2, He1, Hh1, length_app. cbn.
    repeat split; try done. exists q2. by rewrite Hbs2.
Qed.

(** X10 (a whole session): a user starts with a name that is not blank,
    the load brings at least one question, and for every question in turn
    the user clicks one of its option buttons and then Next.  Then the
    session is [Finished]; [breakdown] holds, in question order, exactly the
    record of each choice; [score] is the number of right ones; one score
    post carries the name, that score, the number of questions and that
    breakdown; and nothing was alerted and no exception was thrown. *)
Theorem complete_session (value : jsstring) (qs : list Question.t)
    (cs : list (nat * Z)) (now : Z) :
  blank value = false ->
  qs <> [] ->
  Forall2 (fun q c => is_Some (Question.options q !! c.1)) qs cs ->
  let st :=
    run (StartClick value :: QuestionsSettled (ok_response qs) now :: play cs)
      init in
  phase st = Finished
  /\ questions (vars st) = qs
  /\ breakdown (vars st) = zip_with chosen qs cs
  /\ score (vars st) = count_correct (zip_with chosen qs cs)
  /\ (exists t,
        posts (env st)
        = [ {| ScorePost.username := JsString.trim value;
               ScorePost.correct := count_correct (zip_with chosen qs cs);
               ScorePost.total := length qs;
               ScorePost.timeTaken := elapsed_seconds t (Some now);
               ScorePost.breakdown := zip_with chosen qs cs |} ])
  /\ alerts (env st) = []
  /\ uncaught (console (env st)) = [].
Proof.
  intros Hblank Hqs HF. cbv zeta.
  change (run (StartClick value :: QuestionsSettled (ok_response qs) now
                 :: play cs) init)
    with (run (play cs)
            (run [StartClick value; QuestionsSettled (ok_response qs) now]
               init)).
  destruct (play_from qs now (JsString.trim value) qs [] cs [] _
              eq_refl Hqs HF (started_playing value qs now Hblank Hqs))
    as (Hphase & Hv & Hp & Ha & Hc).
  rewrite Hv. by repeat split.
Qed.

Lemma complete_session_witness :
  breakdown
    (vars (run (StartClick (lit "Ann")
                  :: QuestionsSettled (ok_response Sample.quiz) 1000
                  :: play [(1%nat, 2000); (1%nat, 3000)]) init))
  = [record_of Sample.q1 (lit "b"); record_of Sample.q2 (lit "b")].
Proof.
  destruct (complete_session (lit "Ann") Sample.quiz
              [(1%nat, 2000); (1%nat, 3000)] 1000 eq_refl)
    as (_ & _ & H & _).
  - discriminate.
  - repeat constructor; by eexists.
  - exact H.
Defined.

(** *** What is posted, alerted and shown over time *)

(** X11 (what the collector receives): every score the page has posted
    agrees with the records posted with it: [correct] is the number of
    records with [correct] true, and there are at most [total] records. *)
Theorem posted_scores_are_consistent (evs : list Event) :
  Forall consistent (posts (env (run evs init))).
Proof.
  apply (run_invariant (fun st => Inv st /\ Forall consistent (posts (env st))));
    [|split; [apply Inv_init|constructor]].
  intros ev st [HI HF]. split; [by apply Inv_step|].
  destruct (step_posts ev st) as [->|(now & _ & _ & ->)]; [done|].
  apply Forall_app. split; [done|]. repeat constructor; cbn.
  - apply HI.
  - destruct (inv_answers _ HI) as (qs & HF2 & Hsub).
    rewrite (Forall2_length HF2).
    etrans; [by apply sublist_length|]. rewrite length_take. lia.
Qed.

(** X12 (one post per Next, one alert per load): along any trace from any
    state, the number of score posts grows by at most the number of clicks
    on Next, and the number of alerts by at most the number of settled
    loads; no other event posts or alerts. *)
Theorem posts_and_alerts_are_bounded (evs : list Event) (st : State) :
  (length (posts (env (run evs st)))
   <= length (posts (env st)) + next_clicks evs)%nat
  /\ (length (alerts (env (run evs st)))
      <= length (alerts (env st)) + loads_settled evs)%nat.
Proof.
  revert st. induction evs as [|ev evs IH]; intros st.
  { cbn. unfold next_clicks, loads_settled. cbn. lia. }
  change (run (ev :: evs) st) with (run evs (step ev st)).
  destruct (IH (step ev st)) as [IHp IHa].
  unfold next_clicks, loads_settled in *. split.
  - destruct (step_posts ev st) as [Heq|(now & -> & _ & Heq)];
      rewrite Heq in IHp.
    + cbn [List.filter]. destruct ev; cbn [length]; lia.
    + rewrite length_app in IHp. cbn in IHp |- *. lia.
  - destruct (step_alerts ev st) as [Heq|(o & now & msg & -> & Heq)];
      rewrite Heq in IHa.
    + cbn [List.filter]. destruct ev; cbn [length]; lia.
    + rewrite length_app in IHa. cbn in IHa |- *. lia.
Qed.

Lemma step_screens (ev : Event) (st : State) :
  (hidden (dom st) resultScreen = false ->
   hidden (dom (step ev st)) resultScreen = false)
  /\ (hidden (dom st) introScreen = true ->
      hidden (dom (step ev st)) introScreen = true).
Proof.
  destruct ev as [value|o now|i|now|failure].
  - destruct (JsString.trim value) as [|c name] eqn:Ht.
    + by rewrite start_click_blank.
    + by rewrite start_click_named by (by rewrite Ht).
  - cbn [step]. destruct (fetching (env st)) as [|n]; [done|].
    destruct (loadQuestions_cases o now (with_env (put_fetching n) st))
      as (st' & Hrun & _ & _ & _ & _
          & [(_ & _ & Hd & _)|(data & _ & _ & _ & Hh & _)]);
      unfold dispatch; rewrite Hrun; [by rewrite Hd|by rewrite Hh].
  - cbn [step].
    destruct (optionsContainer (dom st) !! i) as [btn|]; [|done].
    destruct (Button.disabled btn); [done|].
    destruct (questions (vars st) !! currentIndex (vars st)) as [q|] eqn:Hq.
    + destruct (handleAnswer_some st q i (Button.onclick btn) Hq)
        as (st' & Hrun & _ & _ & Hh & _).
      unfold dispatch. by rewrite Hrun, Hh.
    + unfold dispatch. by rewrite handleAnswer_none.
  - destruct (decide (currentIndex (vars st) + 1
                      < length (questions (vars st)))%nat) as [Hmore|Hlast].
    + destruct (next_click_more now st Hmore) as (q & _ & _ & _ & Hh & _).
      by rewrite Hh.
    + rewrite next_click_last by lia.
      destruct (finishQuiz_effect now st)
        as (st' & -> & _ & _ & Hi & _ & Hr & _).
      cbn. by rewrite Hi, Hr.
  - cbn [step]. destruct (posting (env st)); [done|]. by destruct failure.
Qed.

(** X13 (no way back): the script never hides the result screen and never
    shows the intro screen again.  Once the result screen is shown it stays
    shown whatever happens, so the session is [Finished] whenever no load
    is in flight; and once the intro screen is hidden it stays hidden. *)
Theorem screens_never_go_back (evs : list Event) (st : State) :
  (hidden (dom st) resultScreen = false ->
   hidden (dom (run evs st)) resultScreen = false
   /\ (fetching (env (run evs st)) = 0%nat -> phase (run evs st) = Finished))
  /\ (hidden (dom st) introScreen = true ->
      hidden (dom (run evs st)) introScreen = true).
Proof.
  split.
  - intros Hres.
    assert (hidden (dom (run evs st)) resultScreen = false) as Hres'.
    { revert Hres. apply (run_invariant
        (fun s => hidden (dom s) resultScreen = false)).
      intros ev s. apply step_screens. }
    split; [done|]. intros Hf. unfold phase. by rewrite Hf, Hres'.
  - apply (run_invariant (fun s => hidden (dom s) introScreen = true)).
    intros ev s. apply step_screens.
Qed.

Lemma screens_never_go_back_witness :
  phase (run [OptionClick 0%nat; NextClick 9000; ScoreSettled None]
           (step (NextClick 3000) Sample.answered_last)) = Finished.
Proof.
  destruct (screens_never_go_back
              [OptionClick 0%nat; NextClick 9000; ScoreSettled None]
              (step (NextClick 3000) Sample.answered_last))
    as [Hres _].
  destruct Hres as [_ Hphase]; [reflexivity|].
  apply Hphase. reflexivity.
Defined.

(** *** The review and the questions left out *)

Lemma review_items_fold (missed : list Answer.t) (html : jsstring) :
  fold_left (fun html m => html ++ review_item m) missed html
  = html ++ concat (List.map review_item missed).
Proof.
  revert html. induction missed as [|m missed IH]; intros html; cbn.
  - by rewrite app_nil_r.
  - by rewrite IH, <- app_assoc.
Qed.

Lemma missed_none (b : list Answer.t) :
  List.filter (fun r => negb (Answer.correct r)) b = []
  <-> forallb Answer.correct b = true.
Proof.
  induction b as [|r b IH]; [done|]. cbn.
  destruct (Answer.correct r); cbn; [done|]. split; done.
Qed.

Lemma review_header_differs (html : jsstring) :
  review_header ++ html <> perfect_message.
Proof.
  intros H. apply (f_equal (take 2)) in H. vm_compute in H. done.
Qed.

(** X14 (the review area): [finishQuiz] writes the "Perfect score" message
    exactly when no record of [breakdown] is wrong, which includes the case
    of no record at all; otherwise it writes the heading followed by one
    review paragraph for each wrong record, in the order of [breakdown]. *)
Theorem review_area (st : State) (now : Z) :
  let shown := text (dom (finishQuiz now st).2) areasDiv in
  shown
  = (if forallb Answer.correct (breakdown (vars st)) then perfect_message
     else review_header
            ++ concat (List.map review_item
                         (List.filter (fun r => negb (Answer.correct r))
                            (breakdown (vars st)))))
  /\ bool_decide (shown = perfect_message)
     = forallb Answer.correct (breakdown (vars st)).
Proof.
  cbv zeta.
  destruct (finishQuiz_effect now st)
    as (st' & -> & _ & _ & _ & _ & _ & _ & _ & Hshown & _).
  cbn [snd]. rewrite Hshown.
  pose proof (missed_none (breakdown (vars st))) as Hnone.
  unfold review_html.
  destruct (List.filter _ (breakdown (vars st))) as [|m missed] eqn:Hm.
  - rewrite (proj1 Hnone eq_refl). cbn [length Nat.eqb].
    split; [reflexivity|]. apply bool_decide_eq_true_2. reflexivity.
  - destruct (forallb Answer.correct (breakdown (vars st))).
    { by pose proof (proj2 Hnone eq_refl). }
    cbn [length Nat.eqb]. rewrite review_items_fold. split; [done|].
    apply bool_decide_eq_false_2, review_header_differs.
Qed.

(** X15 (records never run ahead): in every state the page can reach there
    are at most [currentIndex + 1] records, and at most [currentIndex] as
    long as an option button can still be clicked. *)
Theorem records_never_run_ahead (evs : list Event) :
  let st := run evs init in
  (length (breakdown (vars st))
   <= currentIndex (vars st)
      + if clickable (optionsContainer (dom st)) then 0 else 1)%nat
  /\ (length (breakdown (vars st)) <= currentIndex (vars st) + 1)%nat.
Proof.
  cbv zeta.
  destruct (inv_answers _ (Inv_run evs init Inv_init)) as (qs & HF & Hsub).
  apply sublist_length in Hsub. rewrite length_take in Hsub.
  rewrite (Forall2_length HF). unfold answerable in Hsub.
  destruct (clickable _); lia.
Qed.

(** X16 (a question can be skipped): the Next handler does not ask whether
    the question on display was answered.  In an [Active] state, Next before
    the last question moves on to the following question, [Active] again,
    and Next on the last question finishes; either way no record is added
    and the score stays, so the skipped question counts in the total
    only. *)
Theorem next_click_skips_unanswered (st : State) (now : Z) :
  phase st = Active ->
  let st' := step (NextClick now) st in
  breakdown (vars st') = breakdown (vars st)
  /\ score (vars st') = score (vars st)
  /\ questions (vars st') = questions (vars st)
  /\ ((currentIndex (vars st) + 1 < length (questions (vars st)))%nat ->
        currentIndex (vars st') = (currentIndex (vars st) + 1)%nat
        /\ phase st' = Active
        /\ posts (env st') = posts (env st))
  /\ ((length (questions (vars st)) <= currentIndex (vars st) + 1)%nat ->
        phase st' = Finished
        /\ exists p,
             posts (env st') = posts (env st) ++ [p]
             /\ ScorePost.total p = length (questions (vars st))
             /\ ScorePost.breakdown p = breakdown (vars st)).
Proof.
  intros (Hfetch & Hres & Hquiz)%phase_Active. cbv zeta.
  destruct (decide (currentIndex (vars st) + 1
                    < length (questions (vars st)))%nat) as [Hmore|Hlast].
  - destruct (next_click_more now st Hmore)
      as (q & _ & Hv & He & Hh & Hbs).
    rewrite Hv, He. repeat split; try done; try lia.
    unfold phase. rewrite He, Hh, Hbs, Hfetch, Hres, Hquiz.
    by rewrite locked_option_buttons.
  - rewrite next_click_last by lia.
    destruct (finishQuiz_effect now st)
      as (st' & -> & Hv & _ & _ & _ & Hres' & _ & _ & _ & Hp & Hf & _).
    cbn [snd]. rewrite Hv. repeat split; try done; try lia.
    + unfold phase. by rewrite Hf, Hfetch, Hres'.
    + eexists. by rewrite Hp.
Qed.

Lemma next_click_skips_unanswered_witness :
  breakdown (vars (step (NextClick 2000) Sample.started)) = []
  /\ phase (step (NextClick 2000) Sample.started) = Active.
Proof.
  destruct (next_click_skips_unanswered Sample.started 2000 eq_refl)
    as (Hb & _ & _ & Hmore & _).
  split; [exact Hb|]. apply Hmore. vm_compute. lia.
Defined.

(** Skipping both questions of the sample quiz: 0 of 2, and still the
    "Perfect score" message. *)
Example skipped_quiz_is_perfect :
  let st := run [NextClick 2000; NextClick 3000] Sample.started in
  phase st = Finished
  /\ text (dom st) finalScoreP = lit "Ann, your final score: 0/2 (0.0%)"
  /\ text (dom st) areasDiv = perfect_message.
Proof. cbv zeta. repeat split; vm_compute; reflexivity. Qed.
